(** * Riemannian score-based SDEs: the Brownian SDE, its time reversal and
    the score-matching losses

  A shallow embedding of [riemannian_score_sde/sde.py] and
  [riemannian_score_sde/losses.py].

  Conventions of the embedding.
  - Python floats and jax arrays of floats are idealised as real numbers:
    a scalar is an [R], a one-dimensional array a [list R], a matrix a
    list of rows.  Rounding, NaN and infinities are outside the model, and
    so are the values Python gives to a division by zero, the square root
    or the logarithm of a negative number and the mean of an empty array.
  - [sde.py] is modelled on single points, [x] a vector and [t] a scalar;
    [losses.py] on batches, [x] an array of shape [(N, d)] and [t] one of
    shape [(N,)].
  - An operation that raises in Python (an einsum or a broadcast whose
    shapes do not fit, an index into an empty axis) returns [None].
  - A PRNG key is the path by which it was derived from the root key,
    so that two keys are equal exactly when they are the same derivation.
  - The collaborators that live outside the two source files (the
    manifold, the score model, the predictor-corrector sampler, the
    automatic differentiation primitive, the base distribution) are
    records of functions or section variables.
  - Keyword arguments that are only passed through ([**kwargs]) are left
    out. *)

From Stdlib Require Import String Reals Lra List Bool Arith Lia.
Import ListNotations.
Open Scope R_scope.

(** ** Arrays *)

Module Arrays.

Definition vec := list R.
Definition matrix := list vec.

(** [jnp.zeros_like]. *)
Definition zeros_like (x : vec) : vec := map (fun _ => 0) x.

(** [jnp.sum] and [jnp.mean] of a one-dimensional array. *)
Definition sum (v : vec) : R := fold_right Rplus 0 v.
Definition mean (v : vec) : R := sum v / INR (length v).

(** [jnp.square], elementwise. *)
Definition square (v : vec) : vec := map (fun a => a * a) v.

(** Pairing of two arrays of the same length. *)
Fixpoint map2 {A B C} (f : A -> B -> C) (a : list A) (b : list B) : list C :=
  match a, b with
  | x :: a', y :: b' => f x y :: map2 f a' b'
  | _, _ => []
  end.

(** A binary elementwise operation on one-dimensional arrays with numpy's
    broadcasting: equal lengths pair up, an array of length one is
    stretched, anything else raises. *)
Definition broadcast2 (f : R -> R -> R) (a b : vec) : option vec :=
  if Nat.eqb (length a) (length b) then Some (map2 f a b)
  else match a, b with
       | [x], _ => Some (map (f x) b)
       | _, [y] => Some (map (fun x => f x y) a)
       | _, _ => None
       end.

(** The inner product of two arrays of the same length. *)
Definition dot (a b : vec) : R := sum (map2 Rmult a b).

Definition cols (M : matrix) : nat :=
  match M with
  | [] => 0%nat
  | r :: _ => length r
  end.

(** All rows have [c] entries. *)
Definition has_cols (c : nat) (M : matrix) : bool :=
  forallb (fun r => Nat.eqb (length r) c) M.

(** [jnp.einsum("...,...,...i->...i", a, b, s)] for scalars [a], [b] and a
    vector [s]: no index is summed, entry [i] is [a * b * s_i]. *)
Definition einsum_scalar (a b : R) (s : vec) : vec :=
  map (fun si => a * b * si) s.

(** [jnp.einsum("...ij,...kj,...k->...i", A, B, s)] for matrices [A]
    ([I] by [J]), [B] ([K] by [J]) and a vector [s] of length [K]: entry
    [i] is the sum over [k] and [j] of [A_ij * B_kj * s_k].  It raises
    when the sizes bound to [j] or to [k] disagree. *)
Definition einsum_entry (Ai : vec) (B : matrix) (s : vec) : R :=
  sum (map2 (fun Bk sk => sum (map2 (fun aij bkj => aij * bkj * sk) Ai Bk)) B s).

Definition einsum_matrix (A B : matrix) (s : vec) : option vec :=
  if has_cols (cols A) A && has_cols (cols A) B
     && Nat.eqb (length B) (length s)
  then Some (map (fun Ai => einsum_entry Ai B s) A)
  else None.

(** The product [G * G^T] and the product of a matrix with a vector, as
    linear algebra writes them; the reference against which the einsum
    contraction is compared. *)
Definition mat_mul_transpose (G : matrix) : matrix :=
  map (fun Gi => map (fun Gk => dot Gi Gk) G) G.

Definition mat_vec (M : matrix) (v : vec) : vec :=
  map (fun Mi => dot Mi v) M.

End Arrays.

(** ** Splittable PRNG keys *)

Module Random.

(** A key is the root key or the [i]-th child of a key; [jax.random.split]
    returns children 0 and 1, in the order [rng, step_rng = split(rng)]. *)
Inductive key : Type :=
| Root (seed : nat)
| Child (parent : key) (i : nat).

Definition split (k : key) : key * key := (Child k 0, Child k 1).

(** The number of splits that lead from the root key to a key. *)
Fixpoint depth (k : key) : nat :=
  match k with
  | Root _ => 0%nat
  | Child p _ => S (depth p)
  end.

End Random.


(** ** [sde.py]: the Brownian SDE and its time reversal *)

Module SDE.
Import Arrays Random.

(** The manifold capability, as the two source files consume it. *)
Record Manifold : Type := {
  random_walk : key -> vec -> R -> option vec;
  log_heat_kernel : vec -> vec -> R -> R;
  random_uniform : key -> nat -> list vec;
  metric_squared_norm : vec -> vec -> R;
  metric_log_volume : R
}.

(** A diffusion coefficient is a scalar or a full matrix. *)
Inductive diffusion : Type :=
| DScalar (g : R)
| DMatrix (G : matrix).

Definition score_function := vec -> R -> vec.

(** The instance attributes set by [Brownian.__init__]. *)
Record Brownian : Type := {
  t0 : R;
  tf : R;
  beta_0 : R;
  beta_f : R;
  manifold : Manifold
}.

(** A forward SDE of another class, seen through the attributes and the
    method that [ReverseBrownian] reads from its [sde] argument. *)
Record OtherSDE : Type := {
  o_t0 : R;
  o_tf : R;
  o_manifold : Manifold;
  o_full_diffusion_matrix : bool;
  o_coefficients : vec -> R -> vec * diffusion
}.

(** The objects of the class hierarchy.  A [ReverseBrownian] carries the
    attributes it inherits from [Brownian] and its own [sde] and
    [score_fn]. *)
Inductive sde : Type :=
| IsBrownian (self : Brownian)
| IsReverseBrownian (self : ReverseBrownian)
| IsOtherSDE (self : OtherSDE)
with ReverseBrownian : Type :=
| MkReverseBrownian (super : Brownian) (sde_ : sde) (score_fn_ : score_function).

Definition rb_super (r : ReverseBrownian) : Brownian :=
  match r with MkReverseBrownian b _ _ => b end.
Definition rb_sde (r : ReverseBrownian) : sde :=
  match r with MkReverseBrownian _ s _ => s end.
Definition rb_score_fn (r : ReverseBrownian) : score_function :=
  match r with MkReverseBrownian _ _ f => f end.

(** Modelled from the spec: the class attribute [full_diffusion_matrix] of
    the base class [SDE] of [score_sde.sde], which is not among the sources.
    The spec gives the Brownian SDE a scalar diffusion and reserves the
    matrix contraction for an SDE that declares a matrix-valued diffusion,
    so the attribute that [Brownian] and [ReverseBrownian] inherit is
    false. *)
Definition SDE_full_diffusion_matrix : bool := false.

(** Attribute access on an object of any class. *)
Definition sde_t0 (s : sde) : R :=
  match s with
  | IsBrownian b => t0 b
  | IsReverseBrownian r => t0 (rb_super r)
  | IsOtherSDE o => o_t0 o
  end.

Definition sde_tf (s : sde) : R :=
  match s with
  | IsBrownian b => tf b
  | IsReverseBrownian r => tf (rb_super r)
  | IsOtherSDE o => o_tf o
  end.

Definition sde_manifold (s : sde) : Manifold :=
  match s with
  | IsBrownian b => manifold b
  | IsReverseBrownian r => manifold (rb_super r)
  | IsOtherSDE o => o_manifold o
  end.

Definition full_diffusion_matrix (s : sde) : bool :=
  match s with
  | IsBrownian _ | IsReverseBrownian _ => SDE_full_diffusion_matrix
  | IsOtherSDE o => o_full_diffusion_matrix o
  end.

(** The defaults of [Brownian.__init__]. *)
Definition default_t0 : R := 0.
Definition default_beta_0 : R := 0.1.
Definition default_beta_f : R := 20.

(** Modelled from the spec: [SDE.__init__(tf, t0)] of [score_sde.sde], which
    is not among the sources; the spec identifies an SDE by its time
    interval, so the base constructor stores [t0] and [tf], returned here
    in this order. *)
Definition SDE__init__ (tf t0 : R) : R * R := (t0, tf).

(** [Brownian.__init__(manifold, tf, t0, beta_0, beta_f)]. *)
Definition Brownian__init__ (manifold : Manifold) (tf t0 beta_0 beta_f : R)
  : Brownian :=
  let '(self_t0, self_tf) := SDE__init__ tf t0 in
  {| t0 := self_t0; tf := self_tf; beta_0 := beta_0; beta_f := beta_f;
     manifold := manifold |}.

Definition Brownian_beta_t (self : Brownian) (t : R) : R :=
  let normed_t := (t - t0 self) / (tf self - t0 self) in
  beta_0 self + normed_t * (beta_f self - beta_0 self).

Definition Brownian_coefficients (self : Brownian) (x : vec) (t : R)
  : vec * diffusion :=
  let beta_t := Brownian_beta_t self t in
  let drift := zeros_like x in
  let diffusion := sqrt beta_t in
  (drift, DScalar diffusion).

Definition Brownian_marginal_prob (self : Brownian) (x : vec) (t : R)
  : vec * R :=
  let log_mean_coeff :=
    - 0.25 * t ^ 2 * (beta_f self - beta_0 self) - 0.5 * t * beta_0 self in
  let std := sqrt (1 - exp (2.0 * log_mean_coeff)) in
  (zeros_like x, std).

Definition Brownian_marginal_log_prob (self : Brownian) (x0 x : vec) (t : R)
  : R :=
  let s := 2 * (0.25 * t ^ 2 * (beta_f self - beta_0 self)
                + 0.5 * t * beta_0 self) in
  log_heat_kernel (manifold self) x0 x s.

(** Line 56: the argument [s] that [marginal_log_prob] hands to the heat
    kernel. *)
Definition Brownian_heat_kernel_s (self : Brownian) (t : R) : R :=
  2 * (0.25 * t ^ 2 * (beta_f self - beta_0 self) + 0.5 * t * beta_0 self).

(** [sample_limiting_distribution]; [shape[0]] of an empty shape is an
    [IndexError]. *)
Definition Brownian_sample_limiting_distribution (self : Brownian)
  (rng : key) (shape : list nat) : option (list vec) :=
  match shape with
  | [] => None
  | n_samples :: _ => Some (random_uniform (manifold self) rng n_samples)
  end.

(** [limiting_distribution_logp] on a batch [z] of shape [(N, d)]:
    [-jnp.ones([N]) * log_volume]. *)
Definition Brownian_limiting_distribution_logp (self : Brownian)
  (z : list vec) : list R :=
  map (fun one => - one * metric_log_volume (manifold self))
      (map (fun _ => 1) z).

(** [ReverseBrownian.__init__]: the inherited constructor is called with
    the manifold of [sde], [tf = sde.t0], [t0 = sde.tf] and no schedule
    argument. *)
Definition ReverseBrownian__init__ (sde_ : sde) (score_fn : score_function)
  : ReverseBrownian :=
  MkReverseBrownian
    (Brownian__init__ (sde_manifold sde_) (sde_t0 sde_) (sde_tf sde_)
                      default_beta_0 default_beta_f)
    sde_ score_fn.

(** [ReverseBrownian.coefficients], with the dispatch of
    [self.sde.coefficients] on the class of [self.sde].  [None] is a
    raising einsum or broadcast; the scalar contraction applied to a
    matrix diffusion would broadcast to an array of rank three, which is no
    drift vector, and is [None] as well. *)
Fixpoint coefficients (s : sde) (x : vec) (t : R) : option (vec * diffusion) :=
  match s with
  | IsBrownian b => Some (Brownian_coefficients b x t)
  | IsReverseBrownian r => ReverseBrownian_coefficients r x t
  | IsOtherSDE o => Some (o_coefficients o x t)
  end
with ReverseBrownian_coefficients (self : ReverseBrownian) (x : vec) (t : R)
  : option (vec * diffusion) :=
  match self with
  | MkReverseBrownian _ sde_ score_fn_ =>
    match coefficients sde_ x t with
    | None => None
    | Some (forward_drift, diffusion) =>
      let score_fn := score_fn_ x t in
      let contraction :=
        if full_diffusion_matrix sde_ then
          match diffusion with
          | DMatrix G => einsum_matrix G G score_fn
          | DScalar _ => None
          end
        else
          match diffusion with
          | DScalar g => Some (einsum_scalar g g score_fn)
          | DMatrix _ => None
          end in
      match contraction with
      | None => None
      | Some c =>
        match broadcast2 Rminus forward_drift c with
        | None => None
        | Some reverse_drift => Some (reverse_drift, diffusion)
        end
      end
    end
  end.

(** The methods that [ReverseBrownian] inherits from [Brownian] run on the
    attributes set by the inherited constructor. *)
Definition ReverseBrownian_beta_t (self : ReverseBrownian) (t : R) : R :=
  Brownian_beta_t (rb_super self) t.

Definition ReverseBrownian_marginal_prob (self : ReverseBrownian) (x : vec)
  (t : R) : vec * R :=
  Brownian_marginal_prob (rb_super self) x t.

Definition ReverseBrownian_marginal_log_prob (self : ReverseBrownian)
  (x0 x : vec) (t : R) : R :=
  Brownian_marginal_log_prob (rb_super self) x0 x t.

(** [Brownian.reverse] and [ReverseBrownian.reverse]. *)
Definition Brownian_reverse (self : Brownian) (score_fn : score_function)
  : ReverseBrownian :=
  ReverseBrownian__init__ (IsBrownian self) score_fn.

Definition ReverseBrownian_reverse (self : ReverseBrownian) : sde :=
  rb_sde self.

(** The calls that [marginal_sample] makes to its collaborators. *)
Inductive call : Type :=
| Call_random_walk (rng : key) (x : vec) (t : R)
| Call_get_pc_sampler (self : sde) (N : nat) (predictor : string)
    (corrector : option string)
| Call_sampler (rng : key) (x : vec) (tf : R).

Section Sampling.

(** [score_sde.sampling.get_pc_sampler]: given the SDE, the number of steps,
    the predictor and the corrector it returns a sampler, which maps a key,
    a start point and a final time to the final point and a second
    component that [marginal_sample] drops. *)
Variable aux : Type.
Variable get_pc_sampler :
  sde -> nat -> string -> option string -> key -> vec -> R -> vec * aux.

(** [Brownian.marginal_sample]; [self] is the object the method runs on,
    a [Brownian] or an object of a subclass that inherits the method.  The
    result comes with the collaborator calls made, in order. *)
Definition Brownian_marginal_sample (self : sde) (rng : key) (x : vec) (t : R)
  : vec * list call :=
  let perturbed_x := random_walk (sde_manifold self) rng x t in
  match perturbed_x with
  | Some perturbed_x => (perturbed_x, [Call_random_walk rng x t])
  | None =>
    let sampler :=
      get_pc_sampler self 100 "EulerMaruyamaManifoldPredictor" None in
    let '(perturbed_x, _) := sampler rng x t in
    (perturbed_x,
     [Call_random_walk rng x t;
      Call_get_pc_sampler self 100 "EulerMaruyamaManifoldPredictor" None;
      Call_sampler rng x t])
  end.

End Sampling.

End SDE.

(** ** The fallback sampler of [marginal_sample] *)

Module PCSampler.
Import Arrays Random SDE.

Section Integrator.

(** The exponential map of the manifold, [exp_map m v x] for the tangent
    vector [v] at the point [x], and the entries of
    [jax.random.normal(key, shape)], entry [i] of the draw with [key]. *)
Variable exp_map : Manifold -> vec -> vec -> vec.
Variable normal : key -> nat -> R.

(** Standard normal noise of the shape of [x]. *)
Definition random_normal (rng : key) (x : vec) : vec :=
  map (normal rng) (seq 0 (length x)).

(** Modelled from the spec: the update of the Euler-Maruyama manifold
    predictor of [score_sde.sampling], which is not among the sources.  The
    spec names the solver Euler-Maruyama on the manifold: one step of
    length [dt] from [x] at time [t] moves along the tangent vector
    [drift * dt + diffusion * sqrt dt * z], with the coefficients of the
    SDE at [(x, t)] and standard normal noise [z], by the exponential map.
    It raises where the coefficients raise or the shapes do not fit. *)
Definition EulerMaruyamaManifoldPredictor (self : sde) (rng : key) (x : vec)
  (t dt : R) : option vec :=
  match coefficients self x t with
  | None => None
  | Some (drift, diffusion) =>
    let z := random_normal rng x in
    let noise :=
      match diffusion with
      | DScalar g => Some (map (Rmult (g * sqrt dt)) z)
      | DMatrix G =>
        if has_cols (length z) G
        then Some (map (Rmult (sqrt dt)) (mat_vec G z))
        else None
      end in
    match noise with
    | None => None
    | Some noise =>
      match broadcast2 Rplus (map (fun a => a * dt) drift) noise with
      | None => None
      | Some tangent => Some (exp_map (sde_manifold self) tangent x)
      end
    end
  end.

(** Modelled from the spec: the loop of the sampler of
    [score_sde.sampling], which is not among the sources; the spec has it
    take a fixed number of steps of fixed length.  From [x] at time [t] it
    takes [n] steps of length [dt], each with the second key of a split.
    The result is the final point and the trajectory: the time and the
    point at the start of each step. *)
Fixpoint pc_loop (n : nat) (self : sde) (dt : R) (rng : key) (x : vec) (t : R)
  : option (vec * list (R * vec)) :=
  match n with
  | O => Some (x, [])
  | S n' =>
    let '(rng, step_rng) := split rng in
    match EulerMaruyamaManifoldPredictor self step_rng x t dt with
    | None => None
    | Some x' =>
      match pc_loop n' self dt rng x' (t + dt) with
      | None => None
      | Some (x_f, hist) => Some (x_f, (t, x) :: hist)
      end
    end
  end.

(** Modelled from the spec: [get_pc_sampler] of [score_sde.sampling], which
    is not among the sources.  The spec has the sampler integrate the SDE
    with a fixed-step solver for [N] steps from [t0] to the final time
    [tf] it is called with.  Only the configuration of the sources is
    modelled, the Euler-Maruyama manifold predictor without corrector; any
    other is outside the model and [None]. *)
Definition get_pc_sampler (self : sde) (N : nat) (predictor : string)
  (corrector : option string) (rng : key) (x : vec) (tf : R)
  : option (vec * list (R * vec)) :=
  match corrector with
  | None =>
    if String.eqb predictor "EulerMaruyamaManifoldPredictor"
    then pc_loop N self ((tf - sde_t0 self) / INR N) rng x (sde_t0 self)
    else None
  | Some _ => None
  end.

(** [Brownian.marginal_sample] with the sampler above in place of a
    parameter: the sampler may raise, and so may the method. *)
Definition marginal_sample (self : sde) (rng : key) (x : vec) (t : R)
  : option (vec * list call) :=
  let perturbed_x := random_walk (sde_manifold self) rng x t in
  match perturbed_x with
  | Some perturbed_x => Some (perturbed_x, [Call_random_walk rng x t])
  | None =>
    let sampler :=
      get_pc_sampler self 100 "EulerMaruyamaManifoldPredictor" None in
    match sampler rng x t with
    | None => None
    | Some (perturbed_x, _) =>
      Some (perturbed_x,
            [Call_random_walk rng x t;
             Call_get_pc_sampler self 100 "EulerMaruyamaManifoldPredictor"
               None;
             Call_sampler rng x t])
    end
  end.

End Integrator.

End PCSampler.


(** ** [losses.py]: the three loss estimators *)

Module Losses.
Import Arrays Random.

(** A batch of [N] points or tangent vectors, an array of shape [(N, d)]. *)
Definition batch := list vec.

Definition shape (x : batch) : nat * nat := (length x, cols x).

Definition zeros_like2 (x : batch) : batch := map zeros_like x.

(** [jnp.expand_dims(v, -1)]: shape [(N,)] to shape [(N, 1)]. *)
Definition expand_dims (v : vec) : batch := map (fun a => [a]) v.

(** All results, or [None] when one of them is. *)
Fixpoint sequence {A} (l : list (option A)) : option (list A) :=
  match l with
  | [] => Some []
  | None :: _ => None
  | Some a :: l' =>
    match sequence l' with
    | Some r => Some (a :: r)
    | None => None
    end
  end.

(** A binary elementwise operation on arrays of shape [(N, d)], with
    broadcasting along both axes. *)
Definition broadcast2_2d (f : R -> R -> R) (a b : batch) : option batch :=
  if Nat.eqb (length a) (length b) then sequence (map2 (broadcast2 f) a b)
  else match a, b with
       | [x], _ => sequence (map (broadcast2 f x) b)
       | _, [y] => sequence (map (fun x => broadcast2 f x y) a)
       | _, _ => None
       end.

(** Modelled from the spec: [batch_mul] of [score_sde.utils], which is not
    among the sources.  The spec describes its result as the second
    argument scaled, example by example, by the first: the two arguments
    have one entry per example and the entries are multiplied pairwise.
    [batch_mul] serves arguments of shape [(N, 1)] and [(N, d)],
    [batch_mul1] arguments of shape [(N,)]. *)
Definition batch_mul (a b : batch) : option batch :=
  if Nat.eqb (length a) (length b) then sequence (map2 (broadcast2 Rmult) a b)
  else None.

Definition batch_mul1 (a b : vec) : option vec :=
  if Nat.eqb (length a) (length b) then Some (map2 Rmult a b) else None.

(** [l[-i]] for [i >= 1] along the leading axis of a jax array: the index
    counts from the end and, where it falls before the first entry, is
    clamped to the first entry; only an axis without entries raises. *)
Definition index_from_end {A} (l : list A) (i : nat) : option A :=
  nth_error l (length l - i).

(** The consumers of PRNG keys in the three loss functions. *)
Inductive consumer : Type :=
| Uniform_t
| Marginal_sample
| Score_eval
| Div_noise
| Div_score_eval
| Base_sample.

Definition consumer_eqb (a b : consumer) : bool :=
  match a, b with
  | Uniform_t, Uniform_t | Marginal_sample, Marginal_sample
  | Score_eval, Score_eval | Div_noise, Div_noise
  | Div_score_eval, Div_score_eval | Base_sample, Base_sample => true
  | _, _ => false
  end.

(** A computation that may raise and that records which key it handed to
    which consumer, in order. *)
Definition M (A : Type) : Type := option (A * list (key * consumer)).

Definition ret {A} (a : A) : M A := Some (a, []).

Definition bind {A B} (m : M A) (f : A -> M B) : M B :=
  match m with
  | None => None
  | Some (a, l1) =>
    match f a with
    | None => None
    | Some (b, l2) => Some (b, l1 ++ l2)
    end
  end.

Definition lift {A} (o : option A) : M A :=
  match o with
  | Some a => ret a
  | None => None
  end.

(** Hand the key [k] to the consumer [c], here the function [f]: a call
    that takes the key, or a closure that captures it for its later
    calls. *)
Definition logged {A} (c : consumer) (k : key) (f : key -> A) : M A :=
  Some (f k, [(k, c)]).

Notation "x <- m ;; k" := (bind m (fun x => k))
  (at level 61, m at next level, right associativity).
Notation "' pat <- m ;; k" :=
  (bind m (fun x => match x with pat => k end))
  (at level 61, pat pattern, m at next level, right associativity).

(** The result of a factory: the closure it returns, or the exception it
    raises. *)
Inductive exn : Type :=
| ConfigurationError.

Inductive result (A : Type) : Type :=
| Ok (a : A)
| Raise (e : exn).
Arguments Ok {A} a.
Arguments Raise {A} e.

(** The SDE object [pushforward.sde], seen through the attributes and
    methods that the loss functions use, on batches. *)
Record sde_object : Type := {
  t0 : R;
  tf : R;
  marginal_sample : key -> batch -> vec -> batch;
  marginal_sample_hist : key -> batch -> vec -> batch * list batch * list vec;
  grad_marginal_log_prob : batch -> batch -> vec -> vec * batch;
  marginal_prob : batch -> vec -> batch * vec;
  varhadan_exp : batch -> batch -> vec -> vec -> batch * vec;
  coefficients : batch -> vec -> batch * vec;
  manifold_metric_squared_norm : batch -> batch -> vec
}.

Record SDEPushForward : Type := { sde : sde_object }.

(** The base distribution of a Moser flow. *)
Record distribution : Type := {
  log_prob : batch -> vec;
  sample : key -> nat -> batch
}.

Record MoserFlow : Type := { base : distribution }.

Record batch_dict : Type := { data : batch }.

Section LossFunctions.

Variables Model Params State : Type.

(** The collaborators of [jax] and [score_sde]. *)
Record externals : Type := {
  get_score_fn :
    sde_object -> Model -> Params -> State -> bool ->
    batch -> vec -> key -> batch * State;
  get_ode_drift_fn : Model -> Params -> State -> batch -> vec -> batch;
  uniform : key -> nat -> R -> R -> vec;
  div_noise : key -> nat * nat -> string -> batch;
  jvp : (batch -> batch) -> batch -> batch -> batch
}.

Variable ext : externals.

(** Modelled from the spec: [get_div_fn] of [score_sde.models], which is not
    among the sources.  The spec has it estimate the divergence of a vector
    field [f] at [(x, t)] from noise [eps] as the directional derivative of
    [f] along [eps], a Jacobian-vector product, in inner product with
    [eps], for each example. *)
Definition get_div_fn (drift_fn : batch -> vec -> batch)
  (hutchinson_type : string) : batch -> vec -> batch -> vec :=
  fun x t eps => map2 dot eps (jvp ext (fun y => drift_fn y t) x eps).

Definition reduce_op (reduce_mean : bool) (v : vec) : R :=
  if reduce_mean then mean v else 0.5 * sum v.

(** Lines 46 to 50 and 111 to 114: one time per example, drawn uniformly
    with [minval = sde.t0 + eps] and [maxval = sde.tf]. *)
Definition sample_times (sde : sde_object) (eps : R) (step_rng : key)
  (x_0 : batch) : M vec :=
  logged Uniform_t step_rng
    (fun k => uniform ext k (length x_0) (t0 sde + eps) (tf sde)).

(** *** Denoising score matching *)

Record dsm_config : Type := {
  dsm_pushforward : SDEPushForward;
  dsm_model : Model;
  dsm_train : bool;
  dsm_reduce_mean : bool;
  dsm_like_w : bool;
  dsm_eps : R;
  dsm_s_zero : bool
}.

(** Lines 53 to 64: the sample of [p(x_t | x_0)], the target score and the
    marginal standard deviation as a column. *)
Definition dsm_sample_and_target (c : dsm_config) (step_rng : key)
  (x_0 : batch) (t : vec) : M (batch * batch * batch) :=
  let sde := sde (dsm_pushforward c) in
  if dsm_s_zero c then
    x_t <- logged Marginal_sample step_rng
             (fun k => marginal_sample sde k x_0 t) ;;
    let logp_grad := snd (grad_marginal_log_prob sde x_0 x_t t) in
    let std := expand_dims (snd (marginal_prob sde (zeros_like2 x_t) t)) in
    ret (x_t, logp_grad, std)
  else
    '(x_t, x_hist, timesteps) <-
       logged Marginal_sample step_rng
         (fun k => marginal_sample_hist sde k x_0 t) ;;
    x_s <- lift (index_from_end x_hist 2) ;;
    ts2 <- lift (index_from_end timesteps 2) ;;
    ts1 <- lift (index_from_end timesteps 1) ;;
    let '(logp_grad, delta_t) := varhadan_exp sde x_s x_t ts2 ts1 in
    let delta_t := t in
    let std :=
      expand_dims (snd (marginal_prob sde (zeros_like2 x_t) delta_t)) in
    ret (x_t, logp_grad, std).

(** Lines 69 to 79: the array [losses], one entry per example. *)
Definition dsm_weighted_losses (c : dsm_config) (x_0 : batch) (t : vec)
  (score logp_grad std : batch) : option vec :=
  let sde := sde (dsm_pushforward c) in
  let reduce_op := reduce_op (dsm_reduce_mean c) in
  if negb (dsm_like_w c) then
    match batch_mul std score, batch_mul std logp_grad with
    | Some score, Some logp_grad =>
      match broadcast2_2d Rminus score logp_grad with
      | Some d =>
        let losses := map square d in
        Some (map reduce_op losses)
      | None => None
      end
    | _, _ => None
    end
  else
    let g2 := map (fun g => g ^ 2) (snd (coefficients sde (zeros_like2 x_0) t)) in
    match broadcast2_2d Rminus score logp_grad with
    | Some d =>
      let losses := map square d in
      broadcast2 Rmult (map reduce_op losses) g2
    | None => None
    end.

(** The body of [loss_fn] up to the array [losses]. *)
Definition dsm_losses (c : dsm_config) (rng : key) (params : Params)
  (states : State) (batch : batch_dict) : M (vec * State) :=
  let sde := sde (dsm_pushforward c) in
  let score_fn :=
    get_score_fn ext sde (dsm_model c) params states (dsm_train c) in
  let x_0 := data batch in
  let '(rng, step_rng) := split rng in
  t <- sample_times sde (dsm_eps c) step_rng x_0 ;;
  let '(rng, step_rng) := split rng in
  '(x_t, logp_grad, std) <- dsm_sample_and_target c step_rng x_0 t ;;
  '(score, new_model_state) <-
     logged Score_eval step_rng (fun k => score_fn x_t t k) ;;
  losses <- lift (dsm_weighted_losses c x_0 t score logp_grad std) ;;
  ret (losses, new_model_state).

Definition dsm_loss_fn (c : dsm_config) (rng : key) (params : Params)
  (states : State) (batch : batch_dict) : M (R * State) :=
  '(losses, new_model_state) <- dsm_losses c rng params states batch ;;
  let loss := mean losses in
  ret (loss, new_model_state).

Definition get_dsm_loss_fn (c : dsm_config)
  : result (key -> Params -> State -> batch_dict -> M (R * State)) :=
  Ok (dsm_loss_fn c).

(** *** Implicit score matching *)

Record ism_config : Type := {
  ism_pushforward : SDEPushForward;
  ism_model : Model;
  ism_train : bool;
  ism_reduce_mean : bool;
  ism_like_w : bool;
  ism_hutchinson_type : string;
  ism_eps : R
}.

Definition ism_losses (c : ism_config) (rng : key) (params : Params)
  (states : State) (batch : batch_dict) : M (vec * State) :=
  let sde := sde (ism_pushforward c) in
  let score_fn :=
    get_score_fn ext sde (ism_model c) params states (ism_train c) in
  let x_0 := data batch in
  let '(rng, step_rng) := split rng in
  t <- sample_times sde (ism_eps c) step_rng x_0 ;;
  let '(rng, step_rng) := split rng in
  x_t <- logged Marginal_sample step_rng
           (fun k => marginal_sample sde k x_0 t) ;;
  '(score, new_model_state) <-
     logged Score_eval step_rng (fun k => score_fn x_t t k) ;;
  let '(rng, step_rng) := split rng in
  epsilon <- logged Div_noise step_rng
               (fun k => div_noise ext k (shape x_0) (ism_hutchinson_type c)) ;;
  drift_fn <- logged Div_score_eval step_rng
                (fun k => fun x t => fst (score_fn x t k)) ;;
  let div_fn := get_div_fn drift_fn (ism_hutchinson_type c) in
  let div_score := div_fn x_t t epsilon in
  let sq_norm_score := manifold_metric_squared_norm sde score x_t in
  losses <- lift (broadcast2 Rplus (map (Rmult 0.5) sq_norm_score) div_score) ;;
  losses <-
    (if ism_like_w c then
       let g2 :=
         map (fun g => g ^ 2) (snd (coefficients sde (zeros_like2 x_0) t)) in
       lift (broadcast2 Rmult losses g2)
     else ret losses) ;;
  ret (losses, new_model_state).

Definition ism_loss_fn (c : ism_config) (rng : key) (params : Params)
  (states : State) (batch : batch_dict) : M (R * State) :=
  '(losses, new_model_state) <- ism_losses c rng params states batch ;;
  let loss := mean losses in
  ret (loss, new_model_state).

Definition get_ism_loss_fn (c : ism_config)
  : result (key -> Params -> State -> batch_dict -> M (R * State)) :=
  Ok (ism_loss_fn c).

(** *** Moser flow *)

Record moser_config : Type := {
  moser_pushforward : MoserFlow;
  moser_model : Model;
  moser_alpha_m : R;
  moser_alpha_p : R;
  moser_K : nat;
  moser_hutchinson_type : string;
  moser_eps : R
}.

(** The inner function [mu].  It reads [step_rng] from the enclosing scope
    when it is called, so the key is an argument here. *)
Definition mu (c : moser_config) (div_fn : batch -> vec -> batch -> vec)
  (step_rng : key) (x : batch) : M (vec * vec) :=
  let eps := moser_eps c in
  let prob_base := map exp (log_prob (base (moser_pushforward c)) x) in
  let t := repeat 0 (length x) in
  epsilon <- logged Div_noise step_rng
               (fun k => div_noise ext k (shape x) (moser_hutchinson_type c)) ;;
  let div_drift := div_fn x t epsilon in
  mu <- lift (broadcast2 Rminus prob_base div_drift) ;;
  let mu_plus := map (Rmax eps) mu in
  let mu_minus := map (fun m => eps - Rmin eps m) mu in
  ret (mu_plus, mu_minus).

Definition moser_loss_fn (c : moser_config) (rng : key) (params : Params)
  (states : State) (batch : batch_dict) : M (R * State) :=
  let drift_fn := get_ode_drift_fn ext (moser_model c) params states in
  let x_0 := data batch in
  let '(rng, step_rng) := split rng in
  let div_fn := get_div_fn drift_fn (moser_hutchinson_type c) in
  '(mu_plus, _) <- mu c div_fn step_rng x_0 ;;
  let log_prob_ := mean (map ln mu_plus) in
  let '(rng, step_rng) := split rng in
  xs <- logged Base_sample step_rng
          (fun k => sample (base (moser_pushforward c)) k (moser_K c)) ;;
  let prior_prob := map exp (log_prob (base (moser_pushforward c)) xs) in
  '(_, mu_minus) <- mu c div_fn step_rng xs ;;
  weighted <- lift (batch_mul1 mu_minus (map (fun p => 1 / p) prior_prob)) ;;
  let volume_m := mean weighted in
  let penalty := moser_alpha_m c * volume_m in
  let loss := - log_prob_ + penalty in
  ret (loss, states).

Definition get_moser_loss_fn (c : moser_config)
  : result (key -> Params -> State -> batch_dict -> M (R * State)) :=
  Ok (moser_loss_fn c).

End LossFunctions.

Arguments get_score_fn {Model Params State}.
Arguments get_ode_drift_fn {Model Params State}.
Arguments uniform {Model Params State}.
Arguments div_noise {Model Params State}.
Arguments jvp {Model Params State}.
Arguments get_div_fn {Model Params State}.
Arguments sample_times {Model Params State}.
Arguments dsm_pushforward {Model}.
Arguments dsm_model {Model}.
Arguments dsm_train {Model}.
Arguments dsm_reduce_mean {Model}.
Arguments dsm_like_w {Model}.
Arguments dsm_eps {Model}.
Arguments dsm_s_zero {Model}.
Arguments dsm_sample_and_target {Model}.
Arguments dsm_weighted_losses {Model}.
Arguments dsm_losses {Model Params State}.
Arguments dsm_loss_fn {Model Params State}.
Arguments get_dsm_loss_fn {Model Params State}.
Arguments ism_pushforward {Model}.
Arguments ism_model {Model}.
Arguments ism_train {Model}.
Arguments ism_reduce_mean {Model}.
Arguments ism_like_w {Model}.
Arguments ism_hutchinson_type {Model}.
Arguments ism_eps {Model}.
Arguments ism_losses {Model Params State}.
Arguments ism_loss_fn {Model Params State}.
Arguments get_ism_loss_fn {Model Params State}.
Arguments moser_pushforward {Model}.
Arguments moser_model {Model}.
Arguments moser_alpha_m {Model}.
Arguments moser_K {Model}.
Arguments moser_hutchinson_type {Model}.
Arguments moser_eps {Model}.
Arguments mu {Model Params State}.
Arguments moser_loss_fn {Model Params State}.
Arguments get_moser_loss_fn {Model Params State}.

End Losses.

(** ** The time reversal, as the specification words it *)

Module SDESpec.
Import Arrays Random SDE.

(** [forward_drift - G * G^T * score]: a full matrix product when the SDE
    declares a matrix-valued diffusion, an elementwise scalar product
    otherwise.  [None] where the declaration and the diffusion disagree. *)
Definition anderson_drift (full : bool) (forward_drift : vec) (G : diffusion)
  (score : vec) : option vec :=
  if full then
    match G with
    | DMatrix M =>
      Some (map2 Rminus forward_drift (mat_vec (mat_mul_transpose M) score))
    | DScalar _ => None
    end
  else
    match G with
    | DScalar g => Some (map2 Rminus forward_drift (map (Rmult (g * g)) score))
    | DMatrix _ => None
    end.

(** The shapes under which the contraction and the subtraction are defined
    entry by entry: the diffusion is of the declared kind, a matrix
    diffusion is rectangular with one row per entry of the score, and the
    forward drift has one entry per entry of the score. *)
Definition shapes_agree (full : bool) (forward_drift : vec) (G : diffusion)
  (score : vec) : bool :=
  Nat.eqb (length forward_drift) (length score) &&
  match G with
  | DMatrix M =>
    full && has_cols (cols M) M && Nat.eqb (length M) (length score)
  | DScalar _ => negb full
  end.

End SDESpec.


(** ** The losses, as the specification words them *)

Module LossSpec.
Import Arrays Random Losses.

(** An array of shape [(N, d)]. *)
Definition has_shape (N d : nat) (b : batch) : bool :=
  Nat.eqb (length b) N && has_cols d b.

(** The squared difference of the predicted and the target score of one
    example, reduced over its dimensions by the mean or by the half-sum. *)
Definition reduced_sq_err (reduce_mean : bool) (score logp_grad : vec) : R :=
  reduce_op reduce_mean (square (map2 Rminus score logp_grad)).

(** The per-example DSM loss as the specification states it: the reduced
    squared difference scaled by the marginal standard deviation, or by the
    squared diffusion coefficient under likelihood weighting. *)
Definition dsm_per_example_stated (like_w reduce_mean : bool) (std g : R)
  (score logp_grad : vec) : R :=
  if like_w then reduced_sq_err reduce_mean score logp_grad * g ^ 2
  else std * reduced_sq_err reduce_mean score logp_grad.

(** The per-example DSM loss that the code computes: without likelihood
    weighting both scores are multiplied by the standard deviation before
    the difference is squared, so the factor is its square. *)
Definition dsm_per_example (like_w reduce_mean : bool) (std g : R)
  (score logp_grad : vec) : R :=
  if like_w then reduced_sq_err reduce_mean score logp_grad * g ^ 2
  else std ^ 2 * reduced_sq_err reduce_mean score logp_grad.

(** The final DSM loss as the specification states it. *)
Definition dsm_final_stated (reduce_mean : bool) (losses : vec) : R :=
  if reduce_mean then mean losses else 0.5 * sum losses.

(** The per-example ISM loss. *)
Definition ism_per_example (like_w : bool) (sq_norm : R) (eps Jeps : vec)
  (g : R) : R :=
  if like_w then (0.5 * sq_norm + dot eps Jeps) * g ^ 2
  else 0.5 * sq_norm + dot eps Jeps.

(** The per-example DSM loss as the specification states it, as a property
    of a run. *)
Definition dsm_per_example_claim {Model Params State}
  (ext : externals Model Params State) (c : dsm_config Model) (rng : key)
  (params : Params) (states : State) (bd : batch_dict) : Prop :=
  forall x_t logp_grad std_col log0 losses st log,
    let sde_ := sde (dsm_pushforward c) in
    let x_0 := data bd in
    let k1 := Child rng 1 in
    let k2 := Child (Child rng 0) 1 in
    let t := uniform ext k1 (length x_0) (t0 sde_ + dsm_eps c) (tf sde_) in
    let score :=
      fst (get_score_fn ext sde_ (dsm_model c) params states (dsm_train c)
             x_t t k2) in
    let std := snd (marginal_prob sde_ (zeros_like2 x_t) t) in
    let g := snd (coefficients sde_ (zeros_like2 x_0) t) in
    dsm_sample_and_target c k2 x_0 t = Some (x_t, logp_grad, std_col, log0) ->
    dsm_losses ext c rng params states bd = Some (losses, st, log) ->
    forall n, (n < length losses)%nat ->
      nth n losses 0
      = dsm_per_example_stated (dsm_like_w c) (dsm_reduce_mean c)
          (nth n std 0) (nth n g 0) (nth n score []) (nth n logp_grad []).

(** The final DSM loss as the specification states it, as a property of a
    run. *)
Definition dsm_final_claim {Model Params State}
  (ext : externals Model Params State) (c : dsm_config Model) (rng : key)
  (params : Params) (states : State) (bd : batch_dict) : Prop :=
  forall losses st log,
    dsm_losses ext c rng params states bd = Some (losses, st, log) ->
    exists log',
      dsm_loss_fn ext c rng params states bd
      = Some (dsm_final_stated (dsm_reduce_mean c) losses, st, log').

(** Score evaluations, at [(x_t, t)] or inside the divergence estimate, are
    draws of one kind; every other consumer is a kind of its own. *)
Definition same_kind (a b : consumer) : bool :=
  match a, b with
  | Score_eval, Div_score_eval | Div_score_eval, Score_eval => true
  | _, _ => consumer_eqb a b
  end.

(** No key is handed to two draws of different kinds. *)
Definition no_key_reuse (log : list (key * consumer)) : Prop :=
  forall k c c', In (k, c) log -> In (k, c') log -> same_kind c c' = true.

(** The key of the Hutchinson noise is no key of a marginal sample or of
    the score evaluation at [(x_t, t)]. *)
Definition noise_key_fresh (log : list (key * consumer)) : Prop :=
  forall k, In (k, Div_noise) log ->
            ~ In (k, Marginal_sample) log /\ ~ In (k, Score_eval) log.

(** The key discipline as the specification states it, as a property of the
    runs of the DSM and of the ISM loss. *)
Definition key_discipline_claim {Model Params State}
  (ext : externals Model Params State) (cd : dsm_config Model)
  (ci : ism_config Model) (rng : key) (params : Params) (states : State)
  (bd : batch_dict) : Prop :=
  (forall r log,
      dsm_loss_fn ext cd rng params states bd = Some (r, log) ->
      no_key_reuse log)
  /\ (forall r log,
         ism_loss_fn ext ci rng params states bd = Some (r, log) ->
         no_key_reuse log /\ noise_key_fresh log).

(** The validation of [eps] as the specification states it: a factory
    raises [ConfigurationError] when [t0 + eps >= tf]. *)
Definition eps_validated_claim {Model Params State}
  (ext : externals Model Params State) (cd : dsm_config Model)
  (ci : ism_config Model) : Prop :=
  (t0 (sde (dsm_pushforward cd)) + dsm_eps cd >= tf (sde (dsm_pushforward cd))
   -> get_dsm_loss_fn ext cd = Raise ConfigurationError)
  /\ (t0 (sde (ism_pushforward ci)) + ism_eps ci
        >= tf (sde (ism_pushforward ci))
      -> get_ism_loss_fn ext ci = Raise ConfigurationError).

(** The contract of [jax.random.uniform]: [n] values in
    [[minval, maxval)] when [minval < maxval]. *)
Definition uniform_in_range {Model Params State}
  (ext : externals Model Params State) : Prop :=
  forall k n lo hi, lo < hi ->
    length (uniform ext k n lo hi) = n
    /\ Forall (fun u => lo <= u < hi) (uniform ext k n lo hi).

End LossSpec.

(** ** Concrete collaborators, for running the definitions *)

Module ToySDE.
Import Arrays Random SDE.

(** A manifold without closed-form random walk. *)
Definition toy_manifold : Manifold :=
  {| random_walk := fun _ _ _ => None;
     log_heat_kernel := fun _ _ s => s;
     random_uniform := fun _ n => repeat [0] n;
     metric_squared_norm := fun v _ => dot v v;
     metric_log_volume := 0 |}.

(** A forward Brownian SDE on [[0, 1]] with the schedule [1, 2]. *)
Definition toy_brownian : Brownian :=
  Brownian__init__ toy_manifold 1 0 1 2.

(** A forward SDE of another class that declares a matrix diffusion. *)
Definition toy_matrix_sde : OtherSDE :=
  {| o_t0 := 0;
     o_tf := 1;
     o_manifold := toy_manifold;
     o_full_diffusion_matrix := true;
     o_coefficients := fun _ _ => ([1; 2], DMatrix [[1; 2]; [3; 4]]) |}.

(** The score of a standard Gaussian, up to sign. *)
Definition toy_score : score_function := fun x _ => x.

(** A sampler that returns its start point. *)
Definition toy_get_pc_sampler (self : sde) (N : nat) (predictor : string)
  (corrector : option string) (rng : key) (x : vec) (tf : R) : vec * unit :=
  (x, tt).

End ToySDE.

Module Toy.
Import Arrays Random Losses.

(** A flat manifold stand-in: the marginal sample is the point itself, the
    target score is zero, the standard deviation is one half, the diffusion
    coefficient is two, and the metric is the Euclidean one. *)
Definition toy_sde (t0 tf : R) : sde_object :=
  {| t0 := t0;
     tf := tf;
     marginal_sample := fun _ x _ => x;
     marginal_sample_hist := fun _ x t => (x, [x; x], [t; t]);
     grad_marginal_log_prob := fun _ x_t t => (map (fun _ => 0) t, zeros_like2 x_t);
     marginal_prob := fun x t => (x, map (fun _ => 1 / 2) t);
     varhadan_exp := fun _ x_t _ t => (zeros_like2 x_t, t);
     coefficients := fun x t => (x, map (fun _ => 2) t);
     manifold_metric_squared_norm := fun v _ => map (fun vi => dot vi vi) v |}.

(** The score model answers one in every coordinate and has no state; the
    uniform draw returns its lower bound; the noise is one in every
    coordinate; the derivative of every field along [eps] is [eps]. *)
Definition toy_ext : externals unit unit unit :=
  {| get_score_fn := fun _ _ _ st _ x _ _ => (map (map (fun _ => 1)) x, st);
     get_ode_drift_fn := fun _ _ _ x _ => x;
     uniform := fun _ n lo _ => repeat lo n;
     div_noise := fun _ shp _ => repeat (repeat 1 (snd shp)) (fst shp);
     jvp := fun _ _ eps => eps |}.

Definition toy_dsm (like_w reduce_mean s_zero : bool) (eps : R)
  : dsm_config unit :=
  {| dsm_pushforward := {| sde := toy_sde 0 1 |};
     dsm_model := tt;
     dsm_train := true;
     dsm_reduce_mean := reduce_mean;
     dsm_like_w := like_w;
     dsm_eps := eps;
     dsm_s_zero := s_zero |}.

Definition toy_ism (like_w : bool) (eps : R) : ism_config unit :=
  {| ism_pushforward := {| sde := toy_sde 0 1 |};
     ism_model := tt;
     ism_train := true;
     ism_reduce_mean := true;
     ism_like_w := like_w;
     ism_hutchinson_type := "Rademacher";
     ism_eps := eps |}.

Definition toy_base : distribution :=
  {| log_prob := fun x => map (fun _ => 0) x;
     sample := fun _ K => repeat [0] K |}.

Definition toy_moser (eps : R) : moser_config unit :=
  {| moser_pushforward := {| base := toy_base |};
     moser_model := tt;
     moser_alpha_m := 1;
     moser_alpha_p := 0;
     moser_K := 2;
     moser_hutchinson_type := "Rademacher";
     moser_eps := eps |}.

(** Batches of one and of three one-dimensional points at the origin. *)
Definition batch1 : batch_dict := {| data := [[0]] |}.
Definition batch3 : batch_dict := {| data := [[0]; [0]; [0]] |}.

End Toy.

(** ** Further concrete collaborators *)

Module ToyMore.
Import Arrays Random Losses Toy.

(** A score model that answers zero in every coordinate, the target score
    of [toy_sde]. *)
Definition toy_ext_zero : externals unit unit unit :=
  {| get_score_fn := fun _ _ _ st _ x _ _ => (map (map (fun _ => 0)) x, st);
     get_ode_drift_fn := fun _ _ _ x _ => x;
     uniform := fun _ n lo _ => repeat lo n;
     div_noise := fun _ shp _ => repeat (repeat 1 (snd shp)) (fst shp);
     jvp := fun _ _ eps => eps |}.

End ToyMore.

(** ** Properties of [sde.py] *)

Section ArrayLemmas.
Import Arrays.

Lemma sum_map2_scale (a b : vec) (c : R) :
  sum (map2 (fun x y => x * y * c) a b) = dot a b * c.
Proof.
  unfold dot. revert b.
  induction a as [|x a IH]; intros [|y b]; simpl; try lra.
  rewrite IH. lra.
Qed.

Lemma einsum_entry_dot (Ai : vec) (B : matrix) (s : vec) :
  einsum_entry Ai B s = dot (map (fun Bk => dot Ai Bk) B) s.
Proof.
  unfold einsum_entry, dot at 1. revert s.
  induction B as [|Bk B IH]; intros [|sk s]; simpl; try reflexivity.
  rewrite IH, sum_map2_scale. reflexivity.
Qed.

Lemma einsum_matrix_is_GGt (G : matrix) (s : vec) :
  has_cols (cols G) G = true ->
  length G = length s ->
  einsum_matrix G G s = Some (mat_vec (mat_mul_transpose G) s).
Proof.
  intros Hc Hl. unfold einsum_matrix.
  rewrite Hc, Hl, Nat.eqb_refl. simpl. f_equal.
  unfold mat_vec, mat_mul_transpose. rewrite map_map.
  apply map_ext. intros Ai. apply einsum_entry_dot.
Qed.

Lemma broadcast2_same_length (f : R -> R -> R) (a b : vec) :
  length a = length b -> broadcast2 f a b = Some (map2 f a b).
Proof.
  intros H. unfold broadcast2. rewrite H, Nat.eqb_refl. reflexivity.
Qed.

Lemma map2_length {A B C} (f : A -> B -> C) (a : list A) (b : list B) :
  length a = length b -> length (map2 f a b) = length a.
Proof.
  revert b. induction a as [|x a IH]; intros [|y b]; simpl; intros H;
    try discriminate; auto.
Qed.

End ArrayLemmas.

Section SDEProperties.
Import Arrays Random SDE SDESpec.

(** The matrix contraction on the matrix with rows [1 2] and [3 4]:
    [G * G^T] has rows [5 11] and [11 25]. *)
Example einsum_matrix_2x2 :
  einsum_matrix [[1; 2]; [3; 4]] [[1; 2]; [3; 4]] [1; 1] = Some [16; 36].
Proof.
  unfold einsum_matrix, einsum_entry. simpl.
  f_equal. f_equal; [|f_equal]; lra.
Qed.

(** The schedule starts at [beta_0] and ends at [beta_f]. *)
Lemma Brownian_beta_t_endpoints (self : Brownian) :
  t0 self <> tf self ->
  Brownian_beta_t self (t0 self) = beta_0 self
  /\ Brownian_beta_t self (tf self) = beta_f self.
Proof.
  intros Hne. unfold Brownian_beta_t. split; field; lra.
Qed.

(** C1.  For a forward SDE [S] whose [coefficients] return [forward_drift]
    and diffusion [G] at [(x, t)], of the declared kind and with fitting
    shapes, the reverse SDE built from [S] and [s_fn] returns the drift
    [forward_drift - G * G^T * score(x, t)], contracted as a full matrix
    product when [S.full_diffusion_matrix] holds and entry by entry with the
    scalar otherwise, returns [G] itself as diffusion, and has the time
    interval of [S] with its endpoints swapped. *)
Theorem reverse_coefficients_anderson
  (S : sde) (s_fn : score_function) (x : vec) (t : R)
  (forward_drift : vec) (G : diffusion) :
  coefficients S x t = Some (forward_drift, G) ->
  shapes_agree (full_diffusion_matrix S) forward_drift G (s_fn x t) = true ->
  let rev := ReverseBrownian__init__ S s_fn in
  (exists reverse_drift,
      anderson_drift (full_diffusion_matrix S) forward_drift G (s_fn x t)
      = Some reverse_drift
      /\ ReverseBrownian_coefficients rev x t = Some (reverse_drift, G))
  /\ sde_t0 (IsReverseBrownian rev) = sde_tf S
  /\ sde_tf (IsReverseBrownian rev) = sde_t0 S.
Proof.
  intros Hc Hs rev. split; [|split; reflexivity].
  unfold shapes_agree in Hs. apply andb_prop in Hs as [Hlen Hkind].
  apply Nat.eqb_eq in Hlen.
  unfold rev, ReverseBrownian__init__. simpl. rewrite Hc.
  unfold anderson_drift.
  destruct G as [g|M].
  - apply negb_true_iff in Hkind. rewrite Hkind.
    exists (map2 Rminus forward_drift (map (Rmult (g * g)) (s_fn x t))).
    split; [reflexivity|].
    unfold einsum_scalar. rewrite broadcast2_same_length.
    + reflexivity.
    + rewrite length_map. exact Hlen.
  - apply andb_prop in Hkind as [Hkind Hrows].
    apply andb_prop in Hkind as [Hfull Hcols].
    apply Nat.eqb_eq in Hrows. rewrite Hfull.
    eexists. split; [reflexivity|].
    rewrite (einsum_matrix_is_GGt M (s_fn x t) Hcols Hrows).
    rewrite broadcast2_same_length; [reflexivity|].
    unfold mat_vec, mat_mul_transpose. rewrite !length_map. lia.
Qed.

(** C2.  Reversing twice is the identity: [reverse] on the reverse SDE
    built from [X] and [s_fn] returns [X] itself, whether the reverse SDE
    was built by the constructor from an SDE of any class or by
    [Brownian.reverse], and so the doubly reversed SDE has the coefficients
    of [X], the forward drift among them, at every [(x, t)]. *)
Theorem reverse_reverse_is_original (X : sde) (B : Brownian)
  (s_fn : score_function) :
  ReverseBrownian_reverse (ReverseBrownian__init__ X s_fn) = X
  /\ ReverseBrownian_reverse (Brownian_reverse B s_fn) = IsBrownian B
  /\ (forall x t,
         coefficients (ReverseBrownian_reverse (ReverseBrownian__init__ X s_fn))
                      x t
         = coefficients X x t)
  /\ (forall x t,
         option_map fst
           (coefficients (ReverseBrownian_reverse (Brownian_reverse B s_fn)) x t)
         = Some (fst (Brownian_coefficients B x t))).
Proof.
  repeat split; reflexivity.
Qed.

(** C10.  The reverse of a forward Brownian SDE with any [beta_0] and
    [beta_f] carries the default schedule [beta_0 = 0.1], [beta_f = 20]:
    the [beta_t], [marginal_prob] and [marginal_log_prob] it inherits are
    those of the default schedule on the swapped interval, which is not the
    forward schedule whenever that differs from the defaults, while its
    [coefficients] return the diffusion of the forward schedule. *)
Theorem reverse_brownian_default_schedule
  (B : Brownian) (s_fn : score_function) (x0 x : vec) (t : R) :
  length (s_fn x t) = length x ->
  let rev := Brownian_reverse B s_fn in
  let g := sqrt (Brownian_beta_t B t) in
  beta_0 (rb_super rev) = 0.1
  /\ beta_f (rb_super rev) = 20
  /\ (beta_0 B <> 0.1 \/ beta_f B <> 20 ->
      (beta_0 (rb_super rev), beta_f (rb_super rev)) <> (beta_0 B, beta_f B))
  /\ ReverseBrownian_beta_t rev t
     = 0.1 + (t - tf B) / (t0 B - tf B) * (20 - 0.1)
  /\ ReverseBrownian_marginal_prob rev x t
     = (zeros_like x,
        sqrt (1 - exp (2.0 * (- 0.25 * t ^ 2 * (20 - 0.1) - 0.5 * t * 0.1))))
  /\ ReverseBrownian_marginal_log_prob rev x0 x t
     = log_heat_kernel (manifold B) x0 x
         (2 * (0.25 * t ^ 2 * (20 - 0.1) + 0.5 * t * 0.1))
  /\ ReverseBrownian_coefficients rev x t
     = Some (map2 Rminus (zeros_like x) (map (Rmult (g * g)) (s_fn x t)),
             DScalar g).
Proof.
  intros Hlen rev g.
  split; [reflexivity|]. split; [reflexivity|].
  split.
  { intros Hd Heq. simpl in Heq. injection Heq as H0 Hf.
    unfold default_beta_0 in H0. unfold default_beta_f in Hf.
    destruct Hd as [Hd|Hd]; apply Hd; symmetry; assumption. }
  split; [reflexivity|]. split; [reflexivity|]. split; [reflexivity|].
  unfold rev, Brownian_reverse, ReverseBrownian__init__. simpl.
  unfold einsum_scalar. rewrite broadcast2_same_length.
  - reflexivity.
  - unfold zeros_like. rewrite !length_map. symmetry. exact Hlen.
Qed.

End SDEProperties.

Section SamplerProperties.
Import Arrays Random SDE PCSampler.

Variable exp_map : Manifold -> vec -> vec -> vec.
Variable normal : key -> nat -> R.

Lemma random_normal_length (rng : key) (x : vec) :
  length (random_normal normal rng x) = length x.
Proof.
  unfold random_normal. rewrite length_map, length_seq. reflexivity.
Qed.

Lemma zero_drift_tangent (dt c : R) (x z : vec) :
  length z = length x ->
  map2 Rplus (map (fun a => a * dt) (zeros_like x)) (map (Rmult c) z)
  = map (Rmult c) z.
Proof.
  revert z. induction x as [|a x IH]; intros [|b z] Hl; simpl in *;
    try discriminate; [reflexivity|].
  f_equal; [ring|]. apply IH. lia.
Qed.

(** One step on a Brownian SDE never raises: the drift is zero, so the
    point moves along the noise scaled by [sqrt beta_t * sqrt dt]. *)
Lemma EulerMaruyama_Brownian_step (B : Brownian) (rng : key) (x : vec)
  (t dt : R) :
  EulerMaruyamaManifoldPredictor exp_map normal (IsBrownian B) rng x t dt
  = Some (exp_map (manifold B)
            (map (fun z => sqrt (Brownian_beta_t B t) * sqrt dt * z)
                 (random_normal normal rng x))
            x).
Proof.
  unfold EulerMaruyamaManifoldPredictor. simpl coefficients.
  unfold Brownian_coefficients. cbv beta iota zeta.
  rewrite broadcast2_same_length
    by (unfold zeros_like; rewrite !length_map, random_normal_length;
        reflexivity).
  rewrite zero_drift_tangent by apply random_normal_length.
  reflexivity.
Qed.

(** The fixed-step loop on a Brownian SDE: it returns after [n] steps, the
    step [k] starts at time [t + k * dt] from the point the step before
    reached, and takes the second key of the [k]-th split. *)
Lemma pc_loop_Brownian (B : Brownian) (dt : R) (n : nat) :
  forall (rng : key) (x : vec) (t : R),
  exists x_f hist,
    pc_loop exp_map normal n (IsBrownian B) dt rng x t = Some (x_f, hist)
    /\ length hist = n
    /\ (forall k, (k < n)%nat ->
          fst (nth k hist (0, [])) = t + INR k * dt)
    /\ nth 0 (map snd hist ++ [x_f]) [] = x
    /\ (forall k, (k < n)%nat ->
          nth (S k) (map snd hist ++ [x_f]) []
          = exp_map (manifold B)
              (map (fun z =>
                      sqrt (Brownian_beta_t B (t + INR k * dt)) * sqrt dt * z)
                   (random_normal normal
                      (Child (Nat.iter k (fun r => Child r 0) rng) 1)
                      (nth k (map snd hist ++ [x_f]) [])))
              (nth k (map snd hist ++ [x_f]) [])).
Proof.
  induction n as [|n IH]; intros rng x t.
  - exists x, []. simpl. repeat split; try reflexivity; intros k Hk; lia.
  - cbn [pc_loop]. unfold split.
    rewrite EulerMaruyama_Brownian_step.
    set (x' := exp_map (manifold B) _ x).
    destruct (IH (Child rng 0) x' (t + dt))
      as (x_f & hist & Hrun & Hlen & Htime & Hfirst & Hstep).
    rewrite Hrun. exists x_f, ((t, x) :: hist).
    split; [reflexivity|]. split; [simpl; lia|]. split; [|split].
    + intros [|k] Hk.
      * simpl. ring.
      * cbn [nth]. rewrite Htime by lia. rewrite S_INR. ring.
    + reflexivity.
    + intros [|k] Hk.
      * cbn [map snd app nth Nat.iter nat_rect]. rewrite Hfirst.
        unfold x'. simpl INR. replace (t + 0 * dt) with t by ring.
        reflexivity.
      * cbn [map snd app nth]. rewrite Hstep by lia.
        rewrite Nat.iter_succ_r.
        replace (t + dt + INR k * dt) with (t + INR (S k) * dt)
          by (rewrite S_INR; ring).
        reflexivity.
Qed.

(** C8.  For every [(rng, x, t)], [marginal_sample] on a Brownian SDE first
    asks the manifold for a random-walk sample and returns it when there is
    one.  Exactly when the manifold answers [None] it integrates the forward
    SDE instead: the sampler built for this SDE with 100 steps, the
    Euler-Maruyama manifold predictor and no corrector runs from [x] with
    the fixed step [(t - t0) / 100], step [k] starting at time
    [t0 + k * dt] and the last one ending at [t], each step moving the
    point by the exponential map along the noise scaled by the diffusion
    [sqrt beta_t] of the forward SDE and [sqrt dt].  In neither case does
    it raise. *)
Theorem marginal_sample_integrates_forward (B : Brownian) (rng : key)
  (x : vec) (t : R) :
  let self := IsBrownian B in
  let em := "EulerMaruyamaManifoldPredictor"%string in
  let dt := (t - t0 B) / INR 100 in
  (exists result, marginal_sample exp_map normal self rng x t = Some result)
  /\ match random_walk (manifold B) rng x t with
     | Some perturbed_x =>
       marginal_sample exp_map normal self rng x t
       = Some (perturbed_x, [Call_random_walk rng x t])
     | None =>
       exists x_f hist,
         get_pc_sampler exp_map normal self 100 em None rng x t
         = Some (x_f, hist)
         /\ marginal_sample exp_map normal self rng x t
            = Some (x_f, [Call_random_walk rng x t;
                          Call_get_pc_sampler self 100 em None;
                          Call_sampler rng x t])
         /\ length hist = 100%nat
         /\ (forall k, (k < 100)%nat ->
               fst (nth k hist (0, [])) = t0 B + INR k * dt)
         /\ t0 B + INR 100 * dt = t
         /\ nth 0 (map snd hist ++ [x_f]) [] = x
         /\ (forall k, (k < 100)%nat ->
               nth (S k) (map snd hist ++ [x_f]) []
               = exp_map (manifold B)
                   (map (fun z =>
                           sqrt (Brownian_beta_t B (t0 B + INR k * dt))
                           * sqrt dt * z)
                        (random_normal normal
                           (Child (Nat.iter k (fun r => Child r 0) rng) 1)
                           (nth k (map snd hist ++ [x_f]) [])))
                   (nth k (map snd hist ++ [x_f]) []))
     end.
Proof.
  intros self em dt.
  destruct (pc_loop_Brownian B dt 100 rng x (t0 B))
    as (x_f & hist & Hrun & Hlen & Htime & Hfirst & Hstep).
  assert (Hsampler : get_pc_sampler exp_map normal self 100 em None rng x t
                     = Some (x_f, hist)).
  { unfold get_pc_sampler, em. rewrite String.eqb_refl. exact Hrun. }
  assert (Hend : t0 B + INR 100 * dt = t).
  { unfold dt. field. apply not_0_INR. discriminate. }
  unfold marginal_sample. fold em. cbn [sde_manifold self].
  change (sde_manifold self) with (manifold B).
  destruct (random_walk (manifold B) rng x t) as [y|].
  - split; [eexists; reflexivity|reflexivity].
  - rewrite Hsampler. split; [eexists; reflexivity|].
    exists x_f, hist. repeat split; assumption || reflexivity.
Qed.

(** Two steps of length 1/2 from time 0 start at the times 0 and 1/2. *)
Example pc_loop_two_steps :
  option_map (fun r => map fst (snd r))
    (pc_loop (fun _ v x => map2 Rplus x v) (fun _ _ => 1) 2
       (IsBrownian ToySDE.toy_brownian) (1 / 2) (Root 0) [0] 0)
  = Some [0; 0 + 1 / 2].
Proof. reflexivity. Qed.

(** The method with a sampler passed in agrees with the method above
    whenever the sampler passed in returns what the modelled one does. *)
Lemma marginal_sample_agrees (aux : Type)
  (sampler :
     sde -> nat -> string -> option string -> key -> vec -> R -> vec * aux)
  (self : sde) (rng : key) (x : vec) (t : R) (result : vec * list call) :
  (forall p hist,
      get_pc_sampler exp_map normal self 100
        "EulerMaruyamaManifoldPredictor" None rng x t = Some (p, hist) ->
      fst (sampler self 100%nat "EulerMaruyamaManifoldPredictor"%string None
             rng x t) = p) ->
  marginal_sample exp_map normal self rng x t = Some result ->
  Brownian_marginal_sample aux sampler self rng x t = result.
Proof.
  intros Hs. unfold marginal_sample, Brownian_marginal_sample.
  destruct (random_walk (sde_manifold self) rng x t) as [y|].
  - intros H. injection H as <-. reflexivity.
  - destruct (get_pc_sampler exp_map normal self 100 _ None rng x t)
      as [[p hist]|] eqn:Hg; [|discriminate].
    intros H. injection H as <-.
    specialize (Hs p hist eq_refl).
    destruct (sampler self 100%nat _ None rng x t) as [p' a].
    simpl in Hs. subst p'. reflexivity.
Qed.

End SamplerProperties.


(** ** Properties of [losses.py] *)

(** Equations between lengths, up to the names of the array types. *)
Ltac lens :=
  unfold Losses.batch, Arrays.matrix, Arrays.vec in *;
  solve [assumption | symmetry; assumption | lia | congruence].

Section BatchLemmas.
Import Arrays Random Losses LossSpec.

Lemma has_cols_Forall (d : nat) (b : batch) :
  has_cols d b = true -> Forall (fun r => length r = d) b.
Proof.
  unfold has_cols. rewrite forallb_forall, Forall_forall.
  intros H r Hr. apply Nat.eqb_eq. auto.
Qed.

Lemma has_shape_inv (N d : nat) (b : batch) :
  has_shape N d b = true -> length b = N /\ Forall (fun r => length r = d) b.
Proof.
  unfold has_shape. intros H. apply andb_prop in H as [H1 H2].
  apply Nat.eqb_eq in H1. split; [exact H1|]. now apply has_cols_Forall.
Qed.

Lemma sequence_broadcast_rows (f : R -> R -> R) (d : nat) (a b : batch) :
  Forall (fun r => length r = d) a ->
  Forall (fun r => length r = d) b ->
  sequence (map2 (broadcast2 f) a b) = Some (map2 (map2 f) a b).
Proof.
  intros Ha. revert b.
  induction Ha as [|x a Hx Ha IH]; intros b Hb; [reflexivity|].
  destruct Hb as [|y b Hy Hb]; [reflexivity|].
  simpl. rewrite broadcast2_same_length by congruence.
  rewrite (IH b Hb). reflexivity.
Qed.

Lemma broadcast2_2d_same_shape (f : R -> R -> R) (N d : nat) (a b : batch) :
  has_shape N d a = true -> has_shape N d b = true ->
  broadcast2_2d f a b = Some (map2 (map2 f) a b).
Proof.
  intros Ha Hb.
  apply has_shape_inv in Ha as [Hla Hca].
  apply has_shape_inv in Hb as [Hlb Hcb].
  unfold broadcast2_2d. rewrite Hla, Hlb, Nat.eqb_refl.
  now apply sequence_broadcast_rows with (d := d).
Qed.

Lemma broadcast2_singleton (s : R) (v : vec) :
  broadcast2 Rmult [s] v = Some (map (Rmult s) v).
Proof.
  unfold broadcast2.
  destruct v as [|y [|z v]]; reflexivity.
Qed.

Lemma batch_mul_column (std : vec) (b : batch) :
  length std = length b ->
  batch_mul (expand_dims std) b
  = Some (map2 (fun s v => map (Rmult s) v) std b).
Proof.
  intros Hl. unfold batch_mul, expand_dims.
  rewrite length_map, Hl, Nat.eqb_refl. clear Hl. revert b.
  induction std as [|s std IH]; intros [|v b]; try reflexivity.
  simpl map. simpl map2. simpl sequence.
  rewrite broadcast2_singleton, IH. reflexivity.
Qed.

Lemma scaled_rows_shape (N d : nat) (std : vec) (b : batch) :
  length std = N -> has_shape N d b = true ->
  has_shape N d (map2 (fun s v => map (Rmult s) v) std b) = true.
Proof.
  intros Hs Hb. apply has_shape_inv in Hb as [Hl Hc].
  unfold has_shape. apply andb_true_intro. split.
  - apply Nat.eqb_eq. rewrite map2_length; lens.
  - clear Hl Hs. unfold has_cols. revert std.
    induction Hc as [|v b Hv Hc IH]; intros [|s std]; try reflexivity.
    simpl. rewrite length_map, Hv, Nat.eqb_refl. apply IH.
Qed.

Lemma nth_map2 {A B C} (f : A -> B -> C) (a : list A) (b : list B)
  (n : nat) (da : A) (db : B) (dc : C) :
  (n < length a)%nat -> length a = length b ->
  nth n (map2 f a b) dc = f (nth n a da) (nth n b db).
Proof.
  revert b n. induction a as [|x a IH]; intros [|y b] n Hn Hl;
    simpl in *; try lia.
  destruct n as [|n]; [reflexivity|]. apply IH; lia.
Qed.

Lemma nth_map_lt {A B} (f : A -> B) (l : list A) (n : nat) (da : A) (db : B) :
  (n < length l)%nat -> nth n (map f l) db = f (nth n l da).
Proof.
  intros Hn. rewrite (nth_indep _ db (f da)) by (rewrite length_map; exact Hn).
  apply map_nth.
Qed.

Lemma sum_square_scaled (s : R) (a b : vec) :
  sum (square (map2 Rminus (map (Rmult s) a) (map (Rmult s) b)))
  = s ^ 2 * sum (square (map2 Rminus a b)).
Proof.
  unfold square. revert b.
  induction a as [|x a IH]; intros [|y b]; simpl; try ring.
  rewrite IH. ring.
Qed.

Lemma length_square_scaled (s : R) (a b : vec) :
  length (square (map2 Rminus (map (Rmult s) a) (map (Rmult s) b)))
  = length (square (map2 Rminus a b)).
Proof.
  unfold square. rewrite !length_map.
  revert b. induction a as [|x a IH]; intros [|y b]; simpl; auto.
Qed.

Lemma reduced_sq_err_scaled (rm : bool) (s : R) (a b : vec) :
  reduce_op rm (square (map2 Rminus (map (Rmult s) a) (map (Rmult s) b)))
  = s ^ 2 * reduced_sq_err rm a b.
Proof.
  unfold reduced_sq_err, reduce_op, mean.
  rewrite sum_square_scaled, length_square_scaled.
  destruct rm; unfold Rdiv; ring.
Qed.

(** The array [losses] of the DSM loss, entry by entry. *)
Lemma dsm_weighted_losses_nth {Model} (c : dsm_config Model)
  (x_0 : batch) (t : vec) (score logp_grad : batch) (std : vec) (N d : nat) :
  let g := snd (coefficients (sde (dsm_pushforward c)) (zeros_like2 x_0) t) in
  has_shape N d score = true ->
  has_shape N d logp_grad = true ->
  length std = N ->
  (dsm_like_w c = true -> length g = N) ->
  exists losses,
    dsm_weighted_losses c x_0 t score logp_grad (expand_dims std) = Some losses
    /\ length losses = N
    /\ forall n, (n < N)%nat ->
         nth n losses 0
         = dsm_per_example (dsm_like_w c) (dsm_reduce_mean c)
             (nth n std 0) (nth n g 0) (nth n score []) (nth n logp_grad []).
Proof.
  intros g Hs Hl Hstd Hg.
  destruct (has_shape_inv _ _ _ Hs) as [Hls _].
  destruct (has_shape_inv _ _ _ Hl) as [Hll _].
  unfold dsm_weighted_losses, dsm_per_example.
  destruct (dsm_like_w c) eqn:Hw; simpl negb; cbv iota.
  - specialize (Hg eq_refl).
    rewrite (broadcast2_2d_same_shape Rminus N d) by assumption.
    fold g. rewrite broadcast2_same_length
      by (rewrite !length_map, map2_length; lens).
    eexists. split; [reflexivity|]. split.
    + rewrite map2_length; rewrite !length_map, map2_length; lens.
    + intros n Hn.
      rewrite (nth_map2 _ _ _ n 0 0)
        by (rewrite ?length_map, ?map2_length; lens).
      rewrite (@nth_map_lt vec R _ _ n [] 0)
        by (rewrite ?length_map, ?map2_length; lens).
      rewrite (@nth_map_lt vec vec _ _ n [] [])
        by (rewrite ?map2_length; lens).
      rewrite (@nth_map2 vec vec vec _ _ _ n [] [] []) by lens.
      rewrite (@nth_map_lt R R _ _ n 0 0) by lens.
      reflexivity.
  - rewrite !batch_mul_column by lens.
    rewrite (broadcast2_2d_same_shape Rminus N d)
      by (apply scaled_rows_shape; assumption).
    eexists. split; [reflexivity|]. split.
    + rewrite !length_map, map2_length; rewrite !map2_length; lens.
    + intros n Hn.
      rewrite (@nth_map_lt vec R _ _ n [] 0)
        by (rewrite ?length_map, ?map2_length; rewrite ?map2_length; lens).
      rewrite (@nth_map_lt vec vec _ _ n [] [])
        by (rewrite ?map2_length; rewrite ?map2_length; lens).
      rewrite (@nth_map2 vec vec vec _ _ _ n [] [] [])
        by (rewrite ?map2_length; lens).
      rewrite !(@nth_map2 R vec vec _ _ _ n 0 [] []) by lens.
      apply reduced_sq_err_scaled.
Qed.

End BatchLemmas.

Section DSMProperties.
Import Arrays Random Losses LossSpec Toy.

(** Indexing from the end: the last but one entry, the only entry where
    the index is clamped, and nothing on an empty axis. *)
Example index_from_end_examples :
  index_from_end [1; 2; 3] 2 = Some 2
  /\ index_from_end [1] 2 = Some 1
  /\ index_from_end (@nil R) 2 = None.
Proof. repeat split. Qed.

Context {Model Params State : Type}.
Variable ext : externals Model Params State.

(** Both branches of [dsm_sample_and_target] hand their key to the marginal
    sampler and return the marginal standard deviation at [t] as a column. *)
Lemma dsm_sample_and_target_inv (c : dsm_config Model) (k : key)
  (x_0 : batch) (t : vec) (x_t logp_grad std_col : batch)
  (log : list (key * consumer)) :
  dsm_sample_and_target c k x_0 t = Some (x_t, logp_grad, std_col, log) ->
  std_col
  = expand_dims
      (snd (marginal_prob (sde (dsm_pushforward c)) (zeros_like2 x_t) t))
  /\ log = [(k, Marginal_sample)].
Proof.
  unfold dsm_sample_and_target.
  destruct (dsm_s_zero c).
  - simpl. intros H. injection H as <- <- <- <-. split; reflexivity.
  - unfold bind, logged, lift, ret.
    destruct (marginal_sample_hist _ k x_0 t) as [[xt x_hist] timesteps].
    destruct (index_from_end x_hist 2) as [x_s|]; [|discriminate].
    destruct (index_from_end timesteps 2) as [ts2|]; [|discriminate].
    destruct (index_from_end timesteps 1) as [ts1|]; [|discriminate].
    destruct (varhadan_exp _ x_s xt ts2 ts1) as [lg dt].
    simpl. intros H. injection H as <- <- <- <-. split; reflexivity.
Qed.

(** The array [losses] of a run of the DSM loss, entry by entry. *)
Lemma dsm_losses_per_example (c : dsm_config Model) (rng : key)
  (params : Params) (states : State) (bd : batch_dict)
  (x_t logp_grad std_col : batch) (log0 : list (key * consumer))
  (N d : nat) :
  let sde_ := sde (dsm_pushforward c) in
  let x_0 := data bd in
  let k1 := Child rng 1 in
  let k2 := Child (Child rng 0) 1 in
  let t := uniform ext k1 (length x_0) (t0 sde_ + dsm_eps c) (tf sde_) in
  let score :=
    fst (get_score_fn ext sde_ (dsm_model c) params states (dsm_train c)
           x_t t k2) in
  let std := snd (marginal_prob sde_ (zeros_like2 x_t) t) in
  let g := snd (coefficients sde_ (zeros_like2 x_0) t) in
  dsm_sample_and_target c k2 x_0 t = Some (x_t, logp_grad, std_col, log0) ->
  has_shape N d score = true ->
  has_shape N d logp_grad = true ->
  length std = N ->
  (dsm_like_w c = true -> length g = N) ->
  exists losses st,
    dsm_losses ext c rng params states bd
    = Some (losses, st,
            [(k1, Uniform_t); (k2, Marginal_sample); (k2, Score_eval)])
    /\ length losses = N
    /\ forall n, (n < N)%nat ->
         nth n losses 0
         = dsm_per_example (dsm_like_w c) (dsm_reduce_mean c)
             (nth n std 0) (nth n g 0) (nth n score []) (nth n logp_grad []).
Proof.
  intros sde_ x_0 k1 k2 t score std g Hst Hs Hl Hstd Hg.
  destruct (dsm_sample_and_target_inv _ _ _ _ _ _ _ _ Hst) as [Hcol Hlog].
  destruct (dsm_weighted_losses_nth c x_0 t score logp_grad std N d
              Hs Hl Hstd Hg) as [losses [Hw [Hlen Hnth]]].
  exists losses.
  exists (snd (get_score_fn ext sde_ (dsm_model c) params states (dsm_train c)
                 x_t t k2)).
  split; [|split; assumption].
  unfold dsm_losses, sample_times, split. cbv beta iota zeta.
  unfold bind at 1. unfold logged at 1.
  fold sde_ x_0 k1 k2 t. rewrite Hst.
  unfold bind, logged.
  destruct (get_score_fn ext sde_ (dsm_model c) params states (dsm_train c)
              x_t t k2) as [sc st] eqn:Hsc.
  subst score std. simpl fst in Hw. rewrite Hcol. fold sde_. rewrite Hw.
  subst log0. reflexivity.
Qed.

(** C3, as the code has it.  In a run of the DSM loss whose collaborators
    return arrays of the shapes of the batch, the loss of example [n] is
    the squared difference of the predicted and the target score, reduced
    over the dimensions, times the squared diffusion coefficient [g(t_n)^2]
    when [like_w] holds; when it does not, both scores are multiplied by
    the marginal standard deviation [std(t_n)] before the difference is
    squared, so that the reduced squared difference is scaled by
    [std(t_n)^2]. *)
Theorem dsm_per_example_loss (c : dsm_config Model) (rng : key)
  (params : Params) (states : State) (bd : batch_dict)
  (x_t logp_grad std_col : batch) (log0 : list (key * consumer))
  (N d : nat) :
  let sde_ := sde (dsm_pushforward c) in
  let x_0 := data bd in
  let k1 := Child rng 1 in
  let k2 := Child (Child rng 0) 1 in
  let t := uniform ext k1 (length x_0) (t0 sde_ + dsm_eps c) (tf sde_) in
  let score :=
    fst (get_score_fn ext sde_ (dsm_model c) params states (dsm_train c)
           x_t t k2) in
  let std := snd (marginal_prob sde_ (zeros_like2 x_t) t) in
  let g := snd (coefficients sde_ (zeros_like2 x_0) t) in
  dsm_sample_and_target c k2 x_0 t = Some (x_t, logp_grad, std_col, log0) ->
  has_shape N d score = true ->
  has_shape N d logp_grad = true ->
  length std = N ->
  (dsm_like_w c = true -> length g = N) ->
  exists losses st log,
    dsm_losses ext c rng params states bd = Some (losses, st, log)
    /\ length losses = N
    /\ forall n, (n < N)%nat ->
         nth n losses 0
         = if dsm_like_w c
           then reduced_sq_err (dsm_reduce_mean c)
                  (nth n score []) (nth n logp_grad [])
                * nth n g 0 ^ 2
           else nth n std 0 ^ 2
                * reduced_sq_err (dsm_reduce_mean c)
                    (nth n score []) (nth n logp_grad []).
Proof.
  intros sde_ x_0 k1 k2 t score std g Hst Hs Hl Hstd Hg.
  destruct (dsm_losses_per_example c rng params states bd x_t logp_grad
              std_col log0 N d Hst Hs Hl Hstd Hg) as [losses [st [H1 [H2 H3]]]].
  exists losses, st. eexists. split; [exact H1|]. split; [exact H2|].
  exact H3.
Qed.

(** C7, as the code has it.  The scalar that the DSM loss function returns
    is the batch mean of the per-example losses for both values of
    [reduce_mean]; the flag selects the reduction over the dimensions
    inside each per-example loss, the mean when it holds and the half-sum
    when it does not. *)
Theorem dsm_loss_is_batch_mean (c : dsm_config Model) (rng : key)
  (params : Params) (states : State) (bd : batch_dict)
  (x_t logp_grad std_col : batch) (log0 : list (key * consumer))
  (N d : nat) :
  let sde_ := sde (dsm_pushforward c) in
  let x_0 := data bd in
  let k1 := Child rng 1 in
  let k2 := Child (Child rng 0) 1 in
  let t := uniform ext k1 (length x_0) (t0 sde_ + dsm_eps c) (tf sde_) in
  let score :=
    fst (get_score_fn ext sde_ (dsm_model c) params states (dsm_train c)
           x_t t k2) in
  let std := snd (marginal_prob sde_ (zeros_like2 x_t) t) in
  let g := snd (coefficients sde_ (zeros_like2 x_0) t) in
  let weight n := if dsm_like_w c then nth n g 0 ^ 2 else nth n std 0 ^ 2 in
  let sq n := square (map2 Rminus (nth n score []) (nth n logp_grad [])) in
  dsm_sample_and_target c k2 x_0 t = Some (x_t, logp_grad, std_col, log0) ->
  has_shape N d score = true ->
  has_shape N d logp_grad = true ->
  length std = N ->
  (dsm_like_w c = true -> length g = N) ->
  exists losses st log,
    dsm_losses ext c rng params states bd = Some (losses, st, log)
    /\ dsm_loss_fn ext c rng params states bd
       = Some (mean losses, st, log)
    /\ length losses = N
    /\ forall n, (n < N)%nat ->
         nth n losses 0
         = weight n * (if dsm_reduce_mean c then mean (sq n)
                       else 0.5 * sum (sq n)).
Proof.
  intros sde_ x_0 k1 k2 t score std g weight sq Hst Hs Hl Hstd Hg.
  destruct (dsm_losses_per_example c rng params states bd x_t logp_grad
              std_col log0 N d Hst Hs Hl Hstd Hg) as [losses [st [H1 [H2 H3]]]].
  exists losses, st. eexists. split; [exact H1|]. split; [|split].
  - unfold dsm_loss_fn. rewrite H1. simpl. reflexivity.
  - exact H2.
  - intros n Hn. rewrite (H3 n Hn).
    unfold dsm_per_example, reduced_sq_err, reduce_op.
    subst weight sq g std score t k1 k2 x_0 sde_. cbv beta.
    destruct (dsm_like_w c), (dsm_reduce_mean c); ring.
Qed.

End DSMProperties.

Section DSMExamples.
Import Arrays Random Losses LossSpec Toy.

(** A run of the DSM loss on one example, without likelihood weighting:
    the score is 1, the target 0 and the standard deviation 1/2; the loss
    is 1/4. *)
Example dsm_run_unweighted :
  dsm_losses toy_ext (toy_dsm false true true 0.001) (Root 0) tt tt batch1
  = Some ([mean [(1 / 2 * 1 - 1 / 2 * 0) * (1 / 2 * 1 - 1 / 2 * 0)]], tt,
          [(Child (Root 0) 1, Uniform_t);
           (Child (Child (Root 0) 0) 1, Marginal_sample);
           (Child (Child (Root 0) 0) 1, Score_eval)]).
Proof. reflexivity. Qed.

(** The per-example DSM loss as stated fails: with [like_w = False], a predicted score 1, a
    target score 0 and a standard deviation 1/2 the per-example loss is
    1/4, not 1/2 times the squared difference 1. *)
Lemma dsm_per_example_claim_counterexample :
  ~ dsm_per_example_claim toy_ext (toy_dsm false true true 0.001) (Root 0)
      tt tt batch1.
Proof.
  intros H.
  specialize (H _ _ _ _ _ _ _ eq_refl dsm_run_unweighted 0%nat (le_n 1)).
  unfold dsm_per_example_stated, reduced_sq_err, reduce_op, mean in H.
  simpl in H. lra.
Qed.

(** A run of the DSM loss on three examples with [reduce_mean = False] and
    likelihood weighting: each per-example loss is the half-sum over its one
    dimension, times [g^2 = 4]. *)
Example dsm_run_half_sum :
  dsm_losses toy_ext (toy_dsm true false true 0.001) (Root 0) tt tt batch3
  = Some ([0.5 * sum [(1 - 0) * (1 - 0)] * 2 ^ 2;
           0.5 * sum [(1 - 0) * (1 - 0)] * 2 ^ 2;
           0.5 * sum [(1 - 0) * (1 - 0)] * 2 ^ 2], tt,
          [(Child (Root 0) 1, Uniform_t);
           (Child (Child (Root 0) 0) 1, Marginal_sample);
           (Child (Child (Root 0) 0) 1, Score_eval)]).
Proof. reflexivity. Qed.

(** The final DSM loss as stated fails: with [reduce_mean = False] and three per-example
    losses equal to 2 the function returns their mean 2, not their half-sum
    3. *)
Lemma dsm_final_claim_counterexample :
  ~ dsm_final_claim toy_ext (toy_dsm true false true 0.001) (Root 0)
      tt tt batch3.
Proof.
  intros H.
  destruct (H _ _ _ dsm_run_half_sum) as [log' Hf].
  unfold dsm_loss_fn in Hf. rewrite dsm_run_half_sum in Hf.
  unfold bind, ret in Hf.
  injection Hf as Hv _.
  unfold dsm_final_stated, mean, sum in Hv. simpl in Hv. lra.
Qed.

End DSMExamples.

Section ISMProperties.
Import Arrays Random Losses LossSpec.

Context {Model Params State : Type}.
Variable ext : externals Model Params State.

(** C4.  In a run of the ISM loss whose collaborators return one entry per
    example, the loss of example [n] is half the squared norm of the score
    in the manifold metric at [x_t] plus the divergence estimate
    [eps^T (d score / d x) eps]: the inner product of the noise with the
    derivative of the score field along the noise, the noise being drawn for
    the shape of [x_0] and the score field evaluated with one fixed key.
    When [like_w] holds the loss is multiplied by [g(t_n)^2]. *)
Theorem ism_per_example_loss (c : ism_config Model) (rng : key)
  (params : Params) (states : State) (bd : batch_dict) (N : nat) :
  let sde_ := sde (ism_pushforward c) in
  let x_0 := data bd in
  let k1 := Child rng 1 in
  let k2 := Child (Child rng 0) 1 in
  let k3 := Child (Child (Child rng 0) 0) 1 in
  let t := uniform ext k1 (length x_0) (t0 sde_ + ism_eps c) (tf sde_) in
  let x_t := marginal_sample sde_ k2 x_0 t in
  let score_fn :=
    get_score_fn ext sde_ (ism_model c) params states (ism_train c) in
  let score := fst (score_fn x_t t k2) in
  let epsilon := div_noise ext k3 (shape x_0) (ism_hutchinson_type c) in
  let Jeps := jvp ext (fun y => fst (score_fn y t k3)) x_t epsilon in
  let sq_norm := manifold_metric_squared_norm sde_ score x_t in
  let g := snd (coefficients sde_ (zeros_like2 x_0) t) in
  length sq_norm = N ->
  length epsilon = N ->
  length Jeps = N ->
  (ism_like_w c = true -> length g = N) ->
  exists losses log,
    ism_losses ext c rng params states bd
    = Some (losses, snd (score_fn x_t t k2), log)
    /\ length losses = N
    /\ forall n, (n < N)%nat ->
         nth n losses 0
         = if ism_like_w c
           then (0.5 * nth n sq_norm 0
                 + dot (nth n epsilon []) (nth n Jeps [])) * nth n g 0 ^ 2
           else 0.5 * nth n sq_norm 0
                + dot (nth n epsilon []) (nth n Jeps []).
Proof.
  intros sde_ x_0 k1 k2 k3 t x_t score_fn score epsilon Jeps sq_norm g
    Hsq He HJ Hg.
  unfold ism_losses, sample_times, split. cbv beta iota zeta.
  unfold bind, logged, lift, ret, get_div_fn.
  fold sde_ x_0 k1 k2 k3 t. fold x_t. fold score_fn.
  destruct (score_fn x_t t k2) as [sc st] eqn:Hsc.
  subst score. simpl fst in *. simpl snd.
  fold epsilon. fold Jeps. fold sq_norm.
  rewrite broadcast2_same_length
    by (rewrite length_map, map2_length; lens).
  assert (Hbase : forall n, (n < N)%nat ->
            nth n (map2 Rplus (map (Rmult 0.5) sq_norm)
                     (map2 dot epsilon Jeps)) 0
            = 0.5 * nth n sq_norm 0 + dot (nth n epsilon []) (nth n Jeps [])).
  { intros n Hn.
    rewrite (@nth_map2 R R R _ _ _ n 0 0 0)
      by (rewrite ?length_map, ?map2_length; lens).
    rewrite (@nth_map_lt R R _ _ n 0 0) by lens.
    rewrite (@nth_map2 vec vec R _ _ _ n [] [] 0) by lens.
    reflexivity. }
  assert (Hlen : length (map2 Rplus (map (Rmult 0.5) sq_norm)
                           (map2 dot epsilon Jeps)) = N).
  { rewrite map2_length; rewrite ?length_map, ?map2_length; lens. }
  destruct (ism_like_w c) eqn:Hw.
  - specialize (Hg eq_refl). fold g.
    rewrite broadcast2_same_length by (rewrite length_map; lens).
    eexists. eexists. split; [reflexivity|]. split.
    + rewrite map2_length; rewrite ?length_map; lens.
    + intros n Hn.
      rewrite (@nth_map2 R R R _ _ _ n 0 0 0)
        by (rewrite ?length_map; lens).
      rewrite (Hbase n Hn).
      rewrite (@nth_map_lt R R _ _ n 0 0) by lens.
      reflexivity.
  - eexists. eexists. split; [reflexivity|]. split.
    + exact Hlen.
    + exact Hbase.
Qed.

End ISMProperties.

Section KeyProperties.
Import Arrays Random Losses LossSpec.

Context {Model Params State : Type}.
Variable ext : externals Model Params State.

Lemma dsm_loss_fn_log (c : dsm_config Model) (rng : key) (params : Params)
  (states : State) (bd : batch_dict) (r : R * State)
  (log : list (key * consumer)) :
  dsm_loss_fn ext c rng params states bd = Some (r, log) ->
  log = [(Child rng 1, Uniform_t);
         (Child (Child rng 0) 1, Marginal_sample);
         (Child (Child rng 0) 1, Score_eval)].
Proof.
  unfold dsm_loss_fn, dsm_losses, sample_times, split.
  cbv beta iota zeta. unfold bind at 1 2. unfold logged at 1.
  destruct (dsm_sample_and_target c _ _ _) as [[[[x_t lg] sc] l0]|] eqn:Hst.
  2:{ unfold bind. discriminate. }
  apply dsm_sample_and_target_inv in Hst as [_ ->].
  unfold bind, logged, lift, ret.
  destruct (get_score_fn ext _ _ _ _ _ x_t _ _) as [score st].
  destruct (dsm_weighted_losses c _ _ score lg sc); [|discriminate].
  intros H. injection H as _ <-. reflexivity.
Qed.

Lemma ism_loss_fn_log (c : ism_config Model) (rng : key) (params : Params)
  (states : State) (bd : batch_dict) (r : R * State)
  (log : list (key * consumer)) :
  ism_loss_fn ext c rng params states bd = Some (r, log) ->
  log = [(Child rng 1, Uniform_t);
         (Child (Child rng 0) 1, Marginal_sample);
         (Child (Child rng 0) 1, Score_eval);
         (Child (Child (Child rng 0) 0) 1, Div_noise);
         (Child (Child (Child rng 0) 0) 1, Div_score_eval)].
Proof.
  unfold ism_loss_fn, ism_losses, sample_times, split.
  cbv beta iota zeta. unfold bind, logged, lift, ret.
  destruct (get_score_fn ext _ _ _ _ _ _ _ _) as [score st].
  destruct (broadcast2 Rplus _ _) as [l|]; [|discriminate].
  destruct (ism_like_w c).
  - destruct (broadcast2 Rmult l _); [|discriminate].
    intros H. injection H as _ <-. reflexivity.
  - intros H. injection H as _ <-. reflexivity.
Qed.

Lemma mu_log (c : moser_config Model) (div_fn : batch -> vec -> batch -> vec)
  (k : key) (x : batch) (r : vec * vec) (log : list (key * consumer)) :
  mu ext c div_fn k x = Some (r, log) -> log = [(k, Div_noise)].
Proof.
  unfold mu, bind, logged, lift, ret.
  destruct (broadcast2 Rminus _ _); [|discriminate].
  intros H. injection H as _ <-. reflexivity.
Qed.

Lemma moser_loss_fn_log (c : moser_config Model) (rng : key)
  (params : Params) (states : State) (bd : batch_dict) (r : R * State)
  (log : list (key * consumer)) :
  moser_loss_fn ext c rng params states bd = Some (r, log) ->
  log = [(Child rng 1, Div_noise);
         (Child (Child rng 0) 1, Base_sample);
         (Child (Child rng 0) 1, Div_noise)].
Proof.
  unfold moser_loss_fn, split. cbv beta iota zeta.
  unfold bind at 1.
  destruct (mu ext c _ (Child rng 1) _) as [[[mp mm] l1]|] eqn:H1;
    [|discriminate].
  apply mu_log in H1 as ->.
  unfold bind at 1. unfold logged at 1.
  unfold bind at 1.
  destruct (mu ext c _ (Child (Child rng 0) 1) _) as [[[mp' mm'] l2]|] eqn:H2;
    [|discriminate].
  apply mu_log in H2 as ->.
  unfold bind, lift, ret.
  destruct (batch_mul1 mm' _); [|discriminate].
  intros H. injection H as _ <-. reflexivity.
Qed.

(** C5, as the code has it.  Every run of a loss function takes the second
    key of each split as [step_rng]; the three step keys of a run are
    pairwise distinct.  The DSM and the ISM loss hand the first to the
    time sampling and the second to both the marginal sampling and the
    score evaluation at [(x_t, t)]; the ISM loss hands the third to both
    the Hutchinson noise and the score evaluations inside the divergence
    estimate, where it is held fixed.  The Moser loss hands the first to
    the noise at the data, the second to both the base sampling and the
    noise at the base samples. *)
Theorem loss_key_usage (cd : dsm_config Model) (ci : ism_config Model)
  (cm : moser_config Model) (rng : key) (params : Params) (states : State)
  (bd : batch_dict) :
  let k1 := Child rng 1 in
  let k2 := Child (Child rng 0) 1 in
  let k3 := Child (Child (Child rng 0) 0) 1 in
  (forall r log,
      dsm_loss_fn ext cd rng params states bd = Some (r, log) ->
      log = [(k1, Uniform_t); (k2, Marginal_sample); (k2, Score_eval)])
  /\ (forall r log,
         ism_loss_fn ext ci rng params states bd = Some (r, log) ->
         log = [(k1, Uniform_t); (k2, Marginal_sample); (k2, Score_eval);
                (k3, Div_noise); (k3, Div_score_eval)])
  /\ (forall r log,
         moser_loss_fn ext cm rng params states bd = Some (r, log) ->
         log = [(k1, Div_noise); (k2, Base_sample); (k2, Div_noise)])
  /\ k1 <> k2 /\ k1 <> k3 /\ k2 <> k3.
Proof.
  intros k1 k2 k3. repeat split.
  - intros r log. apply dsm_loss_fn_log.
  - intros r log. apply ism_loss_fn_log.
  - intros r log. apply moser_loss_fn_log.
  - intros H. apply (f_equal depth) in H. simpl in H. lia.
  - intros H. apply (f_equal depth) in H. simpl in H. lia.
  - intros H. apply (f_equal depth) in H. simpl in H. lia.
Qed.

(** The clamped parts of any result of [mu], broadcast or not. *)
Lemma mu_bounds (c : moser_config Model)
  (div_fn : batch -> vec -> batch -> vec) (k : key) (x : batch)
  (mu_plus mu_minus : vec) (log : list (key * consumer)) :
  mu ext c div_fn k x = Some (mu_plus, mu_minus, log) ->
  Forall (fun p => p >= moser_eps c) mu_plus
  /\ Forall (fun m => m >= 0) mu_minus.
Proof.
  unfold mu, bind, logged, lift, ret.
  destruct (broadcast2 Rminus _ _) as [m|]; [|discriminate].
  intros H. injection H as <- <- _. split.
  - apply Forall_forall. intros p Hp. apply in_map_iff in Hp as [a [<- _]].
    apply Rle_ge, Rmax_l.
  - apply Forall_forall. intros p Hp. apply in_map_iff in Hp as [a [<- _]].
    pose proof (Rmin_l (moser_eps c) a). lra.
Qed.

(** C6.  In the Moser-flow loss, with [mu = base_density(x) - div(drift)(x)]
    for one real per example, [mu] returns [mu_plus = max(eps, mu)] and
    [mu_minus = eps - min(eps, mu)] entry by entry, and for every real [mu]
    and every [eps] each entry of [mu_plus] is at least [eps] and each entry
    of [mu_minus] is at least 0. *)
Theorem moser_mu_clamped (c : moser_config Model)
  (div_fn : batch -> vec -> batch -> vec) (step_rng : key) (x : batch) :
  let eps := moser_eps c in
  let prob_base := map exp (log_prob (base (moser_pushforward c)) x) in
  let epsilon := div_noise ext step_rng (shape x) (moser_hutchinson_type c) in
  let div_drift := div_fn x (repeat 0 (length x)) epsilon in
  let mu_ := map2 Rminus prob_base div_drift in
  length prob_base = length div_drift ->
  exists mu_plus mu_minus log,
    mu ext c div_fn step_rng x = Some (mu_plus, mu_minus, log)
    /\ mu_plus = map (fun m => Rmax eps m) mu_
    /\ mu_minus = map (fun m => eps - Rmin eps m) mu_
    /\ Forall (fun p => p >= eps) mu_plus
    /\ Forall (fun m => m >= 0) mu_minus.
Proof.
  intros eps prob_base epsilon div_drift mu_ Hlen.
  assert (Hrun : mu ext c div_fn step_rng x
                 = Some (map (fun m => Rmax eps m) mu_,
                         map (fun m => eps - Rmin eps m) mu_,
                         [(step_rng, Div_noise)])).
  { unfold mu, bind, logged, lift, ret.
    fold prob_base epsilon. fold div_drift.
    rewrite broadcast2_same_length by exact Hlen. reflexivity. }
  destruct (mu_bounds _ _ _ _ _ _ _ Hrun) as [Hp Hm].
  eexists. eexists. eexists. split; [exact Hrun|].
  split; [reflexivity|]. split; [reflexivity|]. split; assumption.
Qed.

(** C9, as the code has it.  The DSM and the ISM factory return the loss
    function for every configuration, [t0 + eps >= tf] included: [eps] is
    not validated and no exception is raised.  The per-example times are
    drawn by [jax.random.uniform] with [minval = t0 + eps] and
    [maxval = tf], one per example; when [t0 + eps < tf] they lie in
    [[t0 + eps, tf]]. *)
Theorem loss_factories_accept_any_eps (cd : dsm_config Model)
  (ci : ism_config Model) (sde_ : sde_object) (eps : R) (step_rng : key)
  (x_0 : batch) :
  uniform_in_range ext ->
  get_dsm_loss_fn ext cd = Ok (dsm_loss_fn ext cd)
  /\ get_ism_loss_fn ext ci = Ok (ism_loss_fn ext ci)
  /\ sample_times ext sde_ eps step_rng x_0
     = Some (uniform ext step_rng (length x_0) (t0 sde_ + eps) (tf sde_),
             [(step_rng, Uniform_t)])
  /\ (t0 sde_ + eps < tf sde_ ->
      exists t,
        sample_times ext sde_ eps step_rng x_0
        = Some (t, [(step_rng, Uniform_t)])
        /\ length t = length x_0
        /\ Forall (fun u => t0 sde_ + eps <= u <= tf sde_) t).
Proof.
  intros Hu. split; [reflexivity|]. split; [reflexivity|].
  split; [reflexivity|].
  intros Hlt.
  destruct (Hu step_rng (length x_0) _ _ Hlt) as [Hl Hr].
  eexists. split; [reflexivity|]. split; [exact Hl|].
  eapply Forall_impl; [|exact Hr]. simpl. intros u Hu'. lra.
Qed.

End KeyProperties.

(** ** The theorems at concrete inputs *)

Section SDEWitnesses.
Import Arrays Random SDE SDESpec ToySDE.

(** The reversal of a Brownian SDE, with scalar diffusion, and of an SDE
    that declares the matrix diffusion with rows [1 2] and [3 4]. *)
Lemma reverse_coefficients_anderson_witness :
  (let rev := ReverseBrownian__init__ (IsBrownian toy_brownian) toy_score in
   let g := sqrt (Brownian_beta_t toy_brownian (1 / 2)) in
   (exists reverse_drift,
       anderson_drift false [0; 0] (DScalar g) [3; 4] = Some reverse_drift
       /\ ReverseBrownian_coefficients rev [3; 4] (1 / 2)
          = Some (reverse_drift, DScalar g))
   /\ sde_t0 (IsReverseBrownian rev) = 1
   /\ sde_tf (IsReverseBrownian rev) = 0)
  /\
  (let rev := ReverseBrownian__init__ (IsOtherSDE toy_matrix_sde) toy_score in
   let G := DMatrix [[1; 2]; [3; 4]] in
   (exists reverse_drift,
       anderson_drift true [1; 2] G [3; 4] = Some reverse_drift
       /\ ReverseBrownian_coefficients rev [3; 4] (1 / 2)
          = Some (reverse_drift, G))
   /\ sde_t0 (IsReverseBrownian rev) = 1
   /\ sde_tf (IsReverseBrownian rev) = 0).
Proof.
  split.
  - exact (reverse_coefficients_anderson (IsBrownian toy_brownian) toy_score
             [3; 4] (1 / 2) _ _ eq_refl eq_refl).
  - exact (reverse_coefficients_anderson (IsOtherSDE toy_matrix_sde) toy_score
             [3; 4] (1 / 2) _ _ eq_refl eq_refl).
Defined.

(** The reverse of a Brownian SDE with the forward schedule [1, 2]. *)
Lemma reverse_brownian_default_schedule_witness :
  let rev := Brownian_reverse toy_brownian toy_score in
  beta_0 (rb_super rev) = 0.1
  /\ beta_f (rb_super rev) = 20
  /\ (beta_0 (rb_super rev), beta_f (rb_super rev)) <> (1, 2)
  /\ ReverseBrownian_beta_t rev (1 / 2)
     = 0.1 + (1 / 2 - 1) / (0 - 1) * (20 - 0.1)
  /\ ReverseBrownian_coefficients rev [3; 4] (1 / 2)
     = Some ([0 - sqrt (Brownian_beta_t toy_brownian (1 / 2))
                  * sqrt (Brownian_beta_t toy_brownian (1 / 2)) * 3;
              0 - sqrt (Brownian_beta_t toy_brownian (1 / 2))
                  * sqrt (Brownian_beta_t toy_brownian (1 / 2)) * 4],
             DScalar (sqrt (Brownian_beta_t toy_brownian (1 / 2)))).
Proof.
  destruct (reverse_brownian_default_schedule toy_brownian toy_score
              [0; 0] [3; 4] (1 / 2) eq_refl)
    as (H0 & Hf & Hd & Hb & _ & _ & Hc).
  intros rev. split; [exact H0|]. split; [exact Hf|]. split; [|split].
  - apply Hd. left. simpl. lra.
  - exact Hb.
  - exact Hc.
Defined.

End SDEWitnesses.

Section LossWitnesses.
Import Arrays Random Losses LossSpec Toy.

(** The DSM loss of one example without likelihood weighting. *)
Lemma dsm_per_example_loss_witness :
  exists losses st log,
    dsm_losses toy_ext (toy_dsm false true true 0.001) (Root 0) tt tt batch1
    = Some (losses, st, log)
    /\ length losses = 1%nat
    /\ nth 0 losses 0 = (1 / 2) ^ 2 * reduced_sq_err true [1] [0].
Proof.
  destruct (dsm_per_example_loss toy_ext (toy_dsm false true true 0.001)
              (Root 0) tt tt batch1 [[0]] [[0]] [[1 / 2]] _ 1 1
              eq_refl eq_refl eq_refl eq_refl (fun _ => eq_refl))
    as (losses & st & log & H1 & H2 & H3).
  exists losses, st, log. split; [exact H1|]. split; [exact H2|].
  exact (H3 0%nat (le_n 1)).
Defined.

(** The DSM loss of three examples with [reduce_mean = False]. *)
Lemma dsm_loss_is_batch_mean_witness :
  exists losses st log,
    dsm_loss_fn toy_ext (toy_dsm true false true 0.001) (Root 0) tt tt batch3
    = Some (mean losses, st, log)
    /\ length losses = 3%nat
    /\ nth 0 losses 0 = 2 ^ 2 * (0.5 * sum [(1 - 0) * (1 - 0)]).
Proof.
  destruct (dsm_loss_is_batch_mean toy_ext (toy_dsm true false true 0.001)
              (Root 0) tt tt batch3 [[0]; [0]; [0]] [[0]; [0]; [0]]
              [[1 / 2]; [1 / 2]; [1 / 2]] _ 3 1
              eq_refl eq_refl eq_refl eq_refl (fun _ => eq_refl))
    as (losses & st & log & _ & H1 & H2 & H3).
  exists losses, st, log. split; [exact H1|]. split; [exact H2|].
  exact (H3 0%nat (Nat.lt_0_succ 2)).
Defined.

(** The ISM loss of three examples with likelihood weighting. *)
Lemma ism_per_example_loss_witness :
  exists losses log,
    ism_losses toy_ext (toy_ism true 0.001) (Root 0) tt tt batch3
    = Some (losses, tt, log)
    /\ length losses = 3%nat
    /\ nth 0 losses 0 = (0.5 * dot [1] [1] + dot [1] [1]) * 2 ^ 2.
Proof.
  destruct (ism_per_example_loss toy_ext (toy_ism true 0.001) (Root 0) tt tt
              batch3 3 eq_refl eq_refl eq_refl (fun _ => eq_refl))
    as (losses & log & H1 & H2 & H3).
  exists losses, log. split; [exact H1|]. split; [exact H2|].
  exact (H3 0%nat (Nat.lt_0_succ 2)).
Defined.

(** A run of each loss function with the root key [Root 0]. *)
Example dsm_run_keys :
  option_map snd
    (dsm_loss_fn toy_ext (toy_dsm true true true 0.001) (Root 0) tt tt batch1)
  = Some [(Child (Root 0) 1, Uniform_t);
          (Child (Child (Root 0) 0) 1, Marginal_sample);
          (Child (Child (Root 0) 0) 1, Score_eval)].
Proof. reflexivity. Qed.

Example ism_run_keys :
  option_map snd
    (ism_loss_fn toy_ext (toy_ism true 0.001) (Root 0) tt tt batch1)
  = Some [(Child (Root 0) 1, Uniform_t);
          (Child (Child (Root 0) 0) 1, Marginal_sample);
          (Child (Child (Root 0) 0) 1, Score_eval);
          (Child (Child (Child (Root 0) 0) 0) 1, Div_noise);
          (Child (Child (Child (Root 0) 0) 0) 1, Div_score_eval)].
Proof. reflexivity. Qed.

Example moser_run_keys :
  option_map snd
    (moser_loss_fn toy_ext (toy_moser 0.001) (Root 0) tt tt batch1)
  = Some [(Child (Root 0) 1, Div_noise);
          (Child (Child (Root 0) 0) 1, Base_sample);
          (Child (Child (Root 0) 0) 1, Div_noise)].
Proof. reflexivity. Qed.

(** The key discipline as stated fails: the run of the ISM loss with the
    root key [Root 0] hands the one key [Child (Child (Root 0) 0) 1] to the
    marginal sampling and to the score evaluation, two draws of different
    kinds. *)
Lemma key_discipline_claim_counterexample :
  ~ key_discipline_claim toy_ext (toy_dsm true true true 0.001)
      (toy_ism true 0.001) (Root 0) tt tt batch1.
Proof.
  intros [_ Hi].
  destruct (ism_loss_fn toy_ext (toy_ism true 0.001) (Root 0) tt tt batch1)
    as [[r log]|] eqn:Hrun.
  - pose proof ism_run_keys as Hk. rewrite Hrun in Hk. simpl in Hk.
    injection Hk as ->.
    destruct (Hi r _ eq_refl) as [Hreuse _].
    specialize (Hreuse (Child (Child (Root 0) 0) 1) Marginal_sample Score_eval).
    simpl in Hreuse. discriminate Hreuse; auto.
  - pose proof ism_run_keys as Hk. rewrite Hrun in Hk. discriminate.
Qed.

(** The keys of the runs with the root key [Root 0]. *)
Lemma loss_key_usage_witness :
  let k1 := Child (Root 0) 1 in
  let k2 := Child (Child (Root 0) 0) 1 in
  let k3 := Child (Child (Child (Root 0) 0) 0) 1 in
  (exists r,
      ism_loss_fn toy_ext (toy_ism true 0.001) (Root 0) tt tt batch1
      = Some (r, [(k1, Uniform_t); (k2, Marginal_sample); (k2, Score_eval);
                  (k3, Div_noise); (k3, Div_score_eval)]))
  /\ k1 <> k2 /\ k1 <> k3 /\ k2 <> k3.
Proof.
  destruct (loss_key_usage toy_ext (toy_dsm true true true 0.001)
              (toy_ism true 0.001) (toy_moser 0.001) (Root 0) tt tt batch1)
    as (_ & Hi & _ & Hd).
  split; [|exact Hd].
  eexists. erewrite <- (Hi _ _ eq_refl). reflexivity.
Defined.

(** The clamped parts at one point with [mu = exp 0 - 1]. *)
Lemma moser_mu_clamped_witness :
  exists mu_plus mu_minus log,
    mu toy_ext (toy_moser 0.001) (get_div_fn toy_ext (fun x _ => x) "Rademacher")
       (Root 0) [[0]]
    = Some (mu_plus, mu_minus, log)
    /\ mu_plus = [Rmax 0.001 (exp 0 - dot [1] [1])]
    /\ mu_minus = [0.001 - Rmin 0.001 (exp 0 - dot [1] [1])]
    /\ Forall (fun p => p >= 0.001) mu_plus
    /\ Forall (fun m => m >= 0) mu_minus.
Proof.
  exact (moser_mu_clamped toy_ext (toy_moser 0.001)
           (get_div_fn toy_ext (fun x _ => x) "Rademacher") (Root 0) [[0]]
           eq_refl).
Defined.

Lemma toy_uniform_in_range : uniform_in_range toy_ext.
Proof.
  intros k n lo hi Hlt. simpl. split.
  - apply repeat_length.
  - apply Forall_forall. intros u Hu. apply repeat_spec in Hu. lra.
Qed.

(** The validation of [eps] as stated fails: with [t0 = 0], [tf = 1] and [eps = 1] the
    factories return a loss function. *)
Lemma eps_validated_claim_counterexample :
  ~ eps_validated_claim toy_ext (toy_dsm true true true 1) (toy_ism true 1).
Proof.
  intros [Hd _].
  assert (Hge : 0 + 1 >= 1) by lra.
  specialize (Hd Hge). discriminate Hd.
Qed.

(** The factories and the time sampling at [t0 = 0], [tf = 1],
    [eps = 0.001] and a batch of three. *)
Lemma loss_factories_accept_any_eps_witness :
  get_dsm_loss_fn toy_ext (toy_dsm true true true 1)
  = Ok (dsm_loss_fn toy_ext (toy_dsm true true true 1))
  /\ exists t,
       sample_times toy_ext (toy_sde 0 1) 0.001 (Child (Root 0) 1)
         [[0]; [0]; [0]]
       = Some (t, [(Child (Root 0) 1, Uniform_t)])
       /\ length t = 3%nat
       /\ Forall (fun u => 0 + 0.001 <= u <= 1) t.
Proof.
  destruct (loss_factories_accept_any_eps toy_ext (toy_dsm true true true 1)
              (toy_ism true 1) (toy_sde 0 1) 0.001 (Child (Root 0) 1)
              [[0]; [0]; [0]] toy_uniform_in_range)
    as (Hd & _ & _ & Ht).
  split; [exact Hd|].
  apply Ht. simpl. lra.
Defined.

End LossWitnesses.

(** ** Further properties of [sde.py] *)

Section ScheduleProperties.
Import Arrays Random SDE SDESpec.

(** X1.  The noise schedule interpolates: it is [beta_0] at [t0], [beta_f] at
    [tf], and stays between the two on the whole interval. *)
Theorem Brownian_beta_t_interpolates (self : Brownian) (t : R) :
  t0 self < tf self ->
  t0 self <= t <= tf self ->
  Brownian_beta_t self (t0 self) = beta_0 self
  /\ Brownian_beta_t self (tf self) = beta_f self
  /\ Rmin (beta_0 self) (beta_f self) <= Brownian_beta_t self t
     <= Rmax (beta_0 self) (beta_f self).
Proof.
  intros Hlt [Hlo Hhi].
  destruct (Brownian_beta_t_endpoints self) as [H0 Hf]; [lra|].
  split; [exact H0|]. split; [exact Hf|].
  unfold Brownian_beta_t.
  set (u := (t - t0 self) / (tf self - t0 self)).
  assert (Hu0 : 0 <= u).
  { unfold u. apply Rmult_le_pos; [lra|].
    left. apply Rinv_0_lt_compat. lra. }
  assert (Hu1 : u <= 1).
  { unfold u. apply Rmult_le_reg_r with (r := tf self - t0 self); [lra|].
    unfold Rdiv. rewrite Rmult_assoc, Rinv_l by lra. lra. }
  unfold Rmin, Rmax.
  destruct (Rle_dec (beta_0 self) (beta_f self)); split; nra.
Qed.

(** X2.  The forward coefficients on the interval, for a non-negative schedule:
    the drift is zero in every coordinate of [x], the diffusion is a
    non-negative scalar whose square is [beta_t], equal to [sqrt beta_0] at
    [t0] and to [sqrt beta_f] at [tf]. *)
Theorem Brownian_coefficients_schedule (self : Brownian) (x : vec) (t : R) :
  t0 self < tf self ->
  t0 self <= t <= tf self ->
  0 <= beta_0 self ->
  0 <= beta_f self ->
  exists g,
    Brownian_coefficients self x t = (map (fun _ => 0) x, DScalar g)
    /\ 0 <= g
    /\ g * g = Brownian_beta_t self t
    /\ snd (Brownian_coefficients self x (t0 self))
       = DScalar (sqrt (beta_0 self))
    /\ snd (Brownian_coefficients self x (tf self))
       = DScalar (sqrt (beta_f self)).
Proof.
  intros Hlt Ht H0 Hf.
  destruct (Brownian_beta_t_interpolates self t Hlt Ht) as (E0 & Ef & Hlo & _).
  assert (Hb : 0 <= Brownian_beta_t self t).
  { eapply Rle_trans; [|exact Hlo]. apply Rmin_glb; assumption. }
  exists (sqrt (Brownian_beta_t self t)).
  split; [reflexivity|]. split; [apply sqrt_pos|].
  split; [apply sqrt_sqrt; exact Hb|].
  unfold Brownian_coefficients. simpl. rewrite E0, Ef. split; reflexivity.
Qed.

(** X3.  The marginal standard deviation for a non-decreasing, non-negative
    schedule and [t >= 0]: it is 0 at [t = 0] and stays in [[0, 1)]. *)
Theorem Brownian_marginal_prob_std_range (self : Brownian) (x : vec) (t : R) :
  0 <= t ->
  0 <= beta_0 self ->
  beta_0 self <= beta_f self ->
  snd (Brownian_marginal_prob self x 0) = 0
  /\ 0 <= snd (Brownian_marginal_prob self x t) < 1
  /\ fst (Brownian_marginal_prob self x t) = map (fun _ => 0) x.
Proof.
  intros Ht H0 Hf. unfold Brownian_marginal_prob. cbn [fst snd].
  split; [|split; [|reflexivity]].
  - match goal with
    | |- sqrt (1 - exp ?a) = 0 => replace a with 0 by lra
    end.
    rewrite exp_0. replace (1 - 1) with 0 by ring. apply sqrt_0.
  - match goal with
    | |- _ <= sqrt (1 - exp ?a) < _ => set (l := a)
    end.
    assert (Hq : 0 <= t ^ 2 * (beta_f self - beta_0 self)).
    { apply Rmult_le_pos; [apply pow2_ge_0|lra]. }
    assert (Hp : 0 <= t * beta_0 self) by (apply Rmult_le_pos; lra).
    assert (Hl : l <= 0).
    { replace l with (- (0.5 * (t ^ 2 * (beta_f self - beta_0 self)))
                      - t * beta_0 self) by (unfold l; lra).
      lra. }
    assert (He1 : exp l <= 1).
    { destruct Hl as [Hl|Hl].
      - left. rewrite <- exp_0. apply exp_increasing. exact Hl.
      - rewrite Hl, exp_0. lra. }
    pose proof (exp_pos l) as He0.
    split; [apply sqrt_pos|].
    assert (Hs : sqrt (1 - exp l) < sqrt 1) by (apply sqrt_lt_1_alt; lra).
    rewrite sqrt_1 in Hs. exact Hs.
Qed.

(** X4.  [marginal_prob] and [marginal_log_prob] follow one schedule: the heat
    kernel is evaluated at [s], and the squared standard deviation is
    [1 - exp (- s)]. *)
Theorem Brownian_std_of_heat_kernel_s (self : Brownian) (x0 x : vec) (t : R) :
  0 <= Brownian_heat_kernel_s self t ->
  Brownian_marginal_log_prob self x0 x t
  = log_heat_kernel (manifold self) x0 x (Brownian_heat_kernel_s self t)
  /\ snd (Brownian_marginal_prob self x t) ^ 2
     = 1 - exp (- Brownian_heat_kernel_s self t).
Proof.
  intros Hs. split; [reflexivity|].
  unfold Brownian_marginal_prob, Brownian_heat_kernel_s in *. cbn [fst snd].
  set (s := 2 * (0.25 * t ^ 2 * (beta_f self - beta_0 self)
                 + 0.5 * t * beta_0 self)) in *.
  match goal with
  | |- sqrt (1 - exp ?a) ^ 2 = _ => replace a with (- s) by (unfold s; lra)
  end.
  assert (He : exp (- s) <= 1).
  { destruct Hs as [Hs|Hs].
    - left. rewrite <- exp_0. apply exp_increasing. lra.
    - rewrite <- Hs. replace (- 0) with 0 by ring. rewrite exp_0. lra. }
  simpl. rewrite Rmult_1_r. apply sqrt_sqrt. lra.
Qed.

(** X5.  On the unit interval the heat-kernel argument accumulates the schedule:
    between two times it grows by the length of the step times [beta_t] at
    its midpoint, and from 0 it is [t * beta_t (t / 2)]. *)
Theorem Brownian_heat_kernel_s_accumulates (self : Brownian) (t1 t2 : R) :
  t0 self = 0 ->
  tf self = 1 ->
  Brownian_heat_kernel_s self t2 - Brownian_heat_kernel_s self t1
  = (t2 - t1) * Brownian_beta_t self ((t1 + t2) / 2)
  /\ Brownian_heat_kernel_s self t2 = t2 * Brownian_beta_t self (t2 / 2).
Proof.
  intros H0 Hf. unfold Brownian_heat_kernel_s, Brownian_beta_t.
  rewrite H0, Hf. split; nra.
Qed.

(** X6.  The limiting distribution is the normalised uniform one: every entry of
    its log-density is minus the log-volume, so that the density times the
    volume is 1, one entry per point of [z]. *)
Theorem Brownian_limiting_logp_normalised (self : Brownian) (z : list vec) :
  length (Brownian_limiting_distribution_logp self z) = length z
  /\ Forall
       (fun logp =>
          logp = - metric_log_volume (manifold self)
          /\ exp logp * exp (metric_log_volume (manifold self)) = 1)
       (Brownian_limiting_distribution_logp self z).
Proof.
  unfold Brownian_limiting_distribution_logp. split.
  - rewrite !length_map. reflexivity.
  - apply Forall_forall. intros lp Hin.
    apply in_map_iff in Hin as [one [<- Hone]].
    apply in_map_iff in Hone as [v [<- _]].
    split; [ring|].
    rewrite <- exp_plus.
    replace (- (1) * metric_log_volume (manifold self)
             + metric_log_volume (manifold self)) with 0 by ring.
    apply exp_0.
Qed.

End ScheduleProperties.

Section ReversalProperties.
Import Arrays Random SDE SDESpec.

Lemma map2_minus_zeros_scaled (c : R) (x s : vec) :
  length s = length x ->
  map2 Rminus (zeros_like x) (map (fun si => c * si) s)
  = map (fun si => - c * si) s.
Proof.
  revert s. induction x as [|a x IH]; intros [|si s] Hl;
    simpl in *; try discriminate; [reflexivity|].
  f_equal; [ring|]. apply IH. lia.
Qed.

Lemma map2_minus_zeros (fd : vec) :
  map2 Rminus fd (map (fun _ => 0) fd) = fd.
Proof.
  induction fd as [|a fd IH]; simpl; [reflexivity|].
  f_equal; [ring|exact IH].
Qed.

Lemma dot_zeros_r (r z : vec) :
  Forall (fun a => a = 0) z -> dot r z = 0.
Proof.
  unfold dot. intros Hz. revert r.
  induction Hz as [|a z Ha Hz IH]; intros [|b r]; simpl; try reflexivity.
  rewrite IH, Ha. ring.
Qed.

Lemma map_zero_of_length {A} (f : A -> R) (l : list A) (fd : vec) :
  (forall a, f a = 0) -> length l = length fd ->
  map f l = map (fun _ => 0) fd.
Proof.
  intros Hf. revert fd.
  induction l as [|a l IH]; intros [|b fd] Hl; simpl in *;
    try discriminate; [reflexivity|].
  f_equal; [apply Hf|]. apply IH. lia.
Qed.

(** X7.  The reverse of a Brownian SDE drifts along the score, scaled by the
    schedule: where [beta_t] is non-negative the reverse drift is
    [- beta_t * score] in every coordinate and the squared diffusion is
    [beta_t]. *)
Theorem reverse_brownian_drift_is_scaled_score
  (B : Brownian) (s_fn : score_function) (x : vec) (t : R) :
  0 <= Brownian_beta_t B t ->
  length (s_fn x t) = length x ->
  exists g,
    ReverseBrownian_coefficients (Brownian_reverse B s_fn) x t
    = Some (map (fun si => - Brownian_beta_t B t * si) (s_fn x t), DScalar g)
    /\ g * g = Brownian_beta_t B t.
Proof.
  intros Hb Hlen.
  exists (sqrt (Brownian_beta_t B t)).
  split; [|apply sqrt_sqrt; exact Hb].
  unfold Brownian_reverse, ReverseBrownian__init__. simpl.
  unfold einsum_scalar. rewrite broadcast2_same_length
    by (unfold zeros_like; rewrite !length_map; symmetry; exact Hlen).
  rewrite (map2_minus_zeros_scaled _ x (s_fn x t) Hlen).
  rewrite (sqrt_sqrt _ Hb). reflexivity.
Qed.

(** X8.  With a score that vanishes at [(x, t)] the reversal leaves the
    coefficients as they are, for a scalar and for a matrix diffusion. *)
Theorem reverse_with_zero_score_keeps_coefficients
  (S : sde) (s_fn : score_function) (x : vec) (t : R)
  (forward_drift : vec) (G : diffusion) :
  coefficients S x t = Some (forward_drift, G) ->
  s_fn x t = map (fun _ => 0) forward_drift ->
  shapes_agree (full_diffusion_matrix S) forward_drift G (s_fn x t) = true ->
  ReverseBrownian_coefficients (ReverseBrownian__init__ S s_fn) x t
  = Some (forward_drift, G).
Proof.
  intros Hc Hz Hs.
  unfold shapes_agree in Hs. apply andb_prop in Hs as [Hlen Hkind].
  apply Nat.eqb_eq in Hlen.
  unfold ReverseBrownian__init__. simpl. rewrite Hc.
  destruct G as [g|M].
  - apply negb_true_iff in Hkind. rewrite Hkind.
    unfold einsum_scalar. rewrite broadcast2_same_length
      by (rewrite length_map; exact Hlen).
    rewrite Hz, map_map.
    replace (map (fun _ : R => g * g * 0) forward_drift)
      with (map (fun _ : R => 0) forward_drift)
      by (apply map_ext; intros; ring).
    rewrite map2_minus_zeros. reflexivity.
  - apply andb_prop in Hkind as [Hkind Hrows].
    apply andb_prop in Hkind as [Hfull Hcols].
    apply Nat.eqb_eq in Hrows. rewrite Hfull.
    rewrite (einsum_matrix_is_GGt M (s_fn x t) Hcols Hrows).
    assert (Hzero : mat_vec (mat_mul_transpose M) (s_fn x t)
                    = map (fun _ => 0) forward_drift).
    { unfold mat_vec, mat_mul_transpose. rewrite map_map.
      assert (Hl : length M = length forward_drift) by lia.
      assert (Hd : forall r : vec, dot r (s_fn x t) = 0).
      { intros r. apply dot_zeros_r. rewrite Hz.
        apply Forall_forall. intros a Ha.
        apply in_map_iff in Ha as [b [<- _]]. reflexivity. }
      apply map_zero_of_length; [|exact Hl].
      intros r. apply Hd. }
    rewrite Hzero.
    rewrite broadcast2_same_length by (rewrite length_map; reflexivity).
    rewrite map2_minus_zeros. reflexivity.
Qed.

(** X9.  The reversal never touches the diffusion: whenever the coefficients of
    the reverse SDE return, the forward coefficients returned and the
    diffusion is the forward one.  It keeps the manifold, and reversing a
    reverse SDE through the constructor restores the time interval. *)
Theorem reverse_preserves_diffusion
  (S : sde) (s_fn s_fn' : score_function) (x : vec) (t : R)
  (reverse_drift : vec) (G : diffusion) :
  ReverseBrownian_coefficients (ReverseBrownian__init__ S s_fn) x t
  = Some (reverse_drift, G) ->
  let rev := IsReverseBrownian (ReverseBrownian__init__ S s_fn) in
  let rev2 := IsReverseBrownian (ReverseBrownian__init__ rev s_fn') in
  (exists forward_drift, coefficients S x t = Some (forward_drift, G))
  /\ sde_manifold rev = sde_manifold S
  /\ sde_t0 rev2 = sde_t0 S
  /\ sde_tf rev2 = sde_tf S
  /\ forall d2 G2, coefficients rev2 x t = Some (d2, G2) -> G2 = G.
Proof.
  intros H rev rev2.
  assert (Hinv : forall S0 f d0 G0,
            ReverseBrownian_coefficients (ReverseBrownian__init__ S0 f) x t
            = Some (d0, G0) ->
            exists fd, coefficients S0 x t = Some (fd, G0)).
  { intros S0 f d0 G0 H0. unfold ReverseBrownian__init__ in H0.
    simpl in H0.
    destruct (coefficients S0 x t) as [[fd G']|]; [|discriminate].
    exists fd.
    destruct (full_diffusion_matrix S0), G' as [g|M];
      try discriminate.
    - destruct (einsum_matrix M M (f x t)); [|discriminate].
      destruct (broadcast2 Rminus fd v); [|discriminate].
      injection H0 as _ <-. reflexivity.
    - destruct (broadcast2 Rminus fd _); [|discriminate].
      injection H0 as _ <-. reflexivity. }
  split; [exact (Hinv _ _ _ _ H)|].
  split; [reflexivity|]. split; [reflexivity|]. split; [reflexivity|].
  intros d2 G2 H2.
  destruct (Hinv rev s_fn' d2 G2 H2) as [fd Hfd].
  change (coefficients rev x t)
    with (ReverseBrownian_coefficients (ReverseBrownian__init__ S s_fn) x t)
    in Hfd.
  rewrite H in Hfd. injection Hfd as _ <-. reflexivity.
Qed.

(** X10.  [marginal_sample], inherited by the reverse SDE, samples the forward
    noising: it asks the manifold of the forward SDE, and where that has a
    closed form the reverse and the forward object return the same sample;
    only the fallback sampler is built for the reverse object itself. *)
Theorem reverse_marginal_sample_is_forward
  (aux : Type)
  (get_pc_sampler :
     sde -> nat -> string -> option string -> key -> vec -> R -> vec * aux)
  (B : Brownian) (s_fn : score_function) (rng : key) (x : vec) (t : R) :
  let fwd := IsBrownian B in
  let rev := IsReverseBrownian (Brownian_reverse B s_fn) in
  (forall y, random_walk (manifold B) rng x t = Some y ->
     Brownian_marginal_sample aux get_pc_sampler rev rng x t
     = Brownian_marginal_sample aux get_pc_sampler fwd rng x t
     /\ fst (Brownian_marginal_sample aux get_pc_sampler rev rng x t) = y)
  /\ (random_walk (manifold B) rng x t = None ->
      fst (Brownian_marginal_sample aux get_pc_sampler rev rng x t)
      = fst (get_pc_sampler rev 100%nat
               "EulerMaruyamaManifoldPredictor"%string None rng x t)
      /\ fst (Brownian_marginal_sample aux get_pc_sampler fwd rng x t)
         = fst (get_pc_sampler fwd 100%nat
                  "EulerMaruyamaManifoldPredictor"%string None rng x t)).
Proof.
  intros fwd rev. unfold Brownian_marginal_sample.
  simpl sde_manifold. split.
  - intros y Hy. rewrite Hy. split; reflexivity.
  - intros Hn. rewrite Hn.
    destruct (get_pc_sampler rev _ _ _ rng x t) as [p a].
    destruct (get_pc_sampler fwd _ _ _ rng x t) as [p' a'].
    split; reflexivity.
Qed.

End ReversalProperties.

(** ** Further properties of [losses.py] *)

Section DSMFurther.
Import Arrays Random Losses LossSpec.

Context {Model Params State : Type}.
Variable ext : externals Model Params State.

Lemma sum_nonneg (l : vec) : Forall (fun a => 0 <= a) l -> 0 <= sum l.
Proof.
  induction 1 as [|a l Ha Hl IH]; simpl; lra.
Qed.

Lemma mean_nonneg (l : vec) : Forall (fun a => 0 <= a) l -> 0 <= mean l.
Proof.
  intros H. unfold mean. destruct l as [|a l].
  - simpl. lra.
  - apply Rmult_le_pos; [apply sum_nonneg; exact H|].
    left. apply Rinv_0_lt_compat. apply lt_0_INR. simpl. lia.
Qed.

Lemma square_nonneg (v : vec) : Forall (fun a => 0 <= a) (square v).
Proof.
  unfold square. apply Forall_forall. intros a Ha.
  apply in_map_iff in Ha as [b [<- _]]. nra.
Qed.

Lemma reduce_op_square_nonneg (rm : bool) (v : vec) :
  0 <= reduce_op rm (square v).
Proof.
  unfold reduce_op. destruct rm.
  - apply mean_nonneg, square_nonneg.
  - pose proof (sum_nonneg _ (square_nonneg v)). lra.
Qed.

Lemma map2_mult_nonneg (a b : vec) :
  Forall (fun u => 0 <= u) a -> Forall (fun u => 0 <= u) b ->
  Forall (fun u => 0 <= u) (map2 Rmult a b).
Proof.
  intros Ha. revert b.
  induction Ha as [|x a Hx Ha IH]; intros b Hb; [constructor|].
  destruct Hb as [|y b Hy Hb]; [constructor|].
  simpl. constructor; [nra|]. apply IH. exact Hb.
Qed.

Lemma broadcast2_mult_nonneg (a b r : vec) :
  broadcast2 Rmult a b = Some r ->
  Forall (fun u => 0 <= u) a -> Forall (fun u => 0 <= u) b ->
  Forall (fun u => 0 <= u) r.
Proof.
  unfold broadcast2. intros H Ha Hb.
  destruct (Nat.eqb (length a) (length b)).
  - injection H as <-. apply map2_mult_nonneg; assumption.
  - assert (Hl : forall x, 0 <= x ->
                 Forall (fun u => 0 <= u) (map (Rmult x) b)).
    { intros x Hx. apply Forall_forall. intros u Hu.
      apply in_map_iff in Hu as [y [<- Hy]].
      rewrite Forall_forall in Hb. specialize (Hb y Hy). nra. }
    assert (Hr : forall y, 0 <= y ->
                 Forall (fun u => 0 <= u) (map (fun x => x * y) a)).
    { intros y Hy. apply Forall_forall. intros u Hu.
      apply in_map_iff in Hu as [x [<- Hx]].
      rewrite Forall_forall in Ha. specialize (Ha x Hx). nra. }
    destruct a as [|x [|x' a]]; destruct b as [|y [|y' b]];
      try discriminate; injection H as <-;
      first [ solve [constructor]
            | solve [refine (Hl _ _); inversion Ha; assumption]
            | solve [refine (Hr _ _); inversion Hb; assumption] ].
Qed.

Lemma dsm_weighted_losses_nonneg (c : dsm_config Model) (x_0 : batch)
  (t : vec) (score logp_grad std : batch) (losses : vec) :
  dsm_weighted_losses c x_0 t score logp_grad std = Some losses ->
  Forall (fun l => 0 <= l) losses.
Proof.
  unfold dsm_weighted_losses.
  assert (Hr : forall d : batch,
            Forall (fun l => 0 <= l)
              (map (reduce_op (dsm_reduce_mean c)) (map square d))).
  { intros d. apply Forall_forall. intros l Hl.
    apply in_map_iff in Hl as [v [<- Hv]].
    apply in_map_iff in Hv as [w [<- _]].
    apply reduce_op_square_nonneg. }
  destruct (dsm_like_w c); simpl negb; cbv iota.
  - destruct (broadcast2_2d Rminus score logp_grad) as [d|]; [|discriminate].
    intros H. eapply broadcast2_mult_nonneg; [exact H|apply Hr|].
    apply Forall_forall. intros u Hu.
    apply in_map_iff in Hu as [g [<- _]]. apply pow2_ge_0.
  - destruct (batch_mul std score) as [sc|]; [|discriminate].
    destruct (batch_mul std logp_grad) as [lg|]; [|discriminate].
    destruct (broadcast2_2d Rminus sc lg) as [d|]; [|discriminate].
    intros H. injection H as <-. apply Hr.
Qed.

Lemma dsm_losses_inv (c : dsm_config Model) (rng : key) (params : Params)
  (states : State) (bd : batch_dict) (losses : vec) (st : State)
  (log : list (key * consumer)) :
  dsm_losses ext c rng params states bd = Some (losses, st, log) ->
  exists t x_t score logp_grad std,
    dsm_sample_and_target c (Child (Child rng 0) 1) (data bd) t
    = Some (x_t, logp_grad, std, [(Child (Child rng 0) 1, Marginal_sample)])
    /\ (score, st)
       = get_score_fn ext (sde (dsm_pushforward c)) (dsm_model c) params
           states (dsm_train c) x_t t (Child (Child rng 0) 1)
    /\ dsm_weighted_losses c (data bd) t score logp_grad std = Some losses.
Proof.
  unfold dsm_losses, sample_times, split.
  cbv beta iota zeta. unfold bind at 1. unfold logged at 1.
  set (t := uniform ext _ _ _ _).
  unfold bind at 1.
  destruct (dsm_sample_and_target c _ _ t) as [[[[x_t lg] sc] l0]|] eqn:Hst;
    [|discriminate].
  destruct (dsm_sample_and_target_inv _ _ _ _ _ _ _ _ Hst) as [_ Hl0].
  subst l0.
  unfold bind, logged, lift, ret.
  destruct (get_score_fn ext _ _ _ _ _ x_t t _) as [score st'] eqn:Hsc.
  destruct (dsm_weighted_losses c _ t score lg sc) as [ls|] eqn:Hw;
    [|discriminate].
  intros H. injection H as <- <- _.
  exists t, x_t, score, lg, sc.
  split; [exact Hst|]. split; [symmetry; exact Hsc|exact Hw].
Qed.

(** X11.  Whenever the DSM loss function returns, every per-example loss is
    non-negative, for both weightings and both reductions, and so is the
    returned mean over a non-empty batch. *)
Theorem dsm_loss_nonneg (c : dsm_config Model) (rng : key) (params : Params)
  (states : State) (bd : batch_dict) (loss : R) (st : State)
  (log : list (key * consumer)) :
  dsm_loss_fn ext c rng params states bd = Some (loss, st, log) ->
  exists losses,
    dsm_losses ext c rng params states bd = Some (losses, st, log)
    /\ loss = mean losses
    /\ Forall (fun l => 0 <= l) losses
    /\ (losses <> [] -> 0 <= loss).
Proof.
  unfold dsm_loss_fn, bind, ret.
  destruct (dsm_losses ext c rng params states bd) as [[[losses st'] l]|]
    eqn:Hl; [|discriminate].
  intros H. injection H as <- <- <-.
  exists losses. rewrite app_nil_r. split; [reflexivity|].
  split; [reflexivity|].
  destruct (dsm_losses_inv _ _ _ _ _ _ _ _ Hl)
    as (t & x_t & score & lg & sc & _ & _ & Hw).
  pose proof (dsm_weighted_losses_nonneg _ _ _ _ _ _ _ Hw) as Hn.
  split; [exact Hn|]. intros _. apply mean_nonneg. exact Hn.
Qed.

Lemma sum_zero_of_nth (l : vec) :
  (forall n, (n < length l)%nat -> nth n l 0 = 0) -> sum l = 0.
Proof.
  induction l as [|a l IH]; intros H; simpl; [reflexivity|].
  rewrite IH.
  - assert (Ha : nth 0 (a :: l) 0 = 0) by (apply H; simpl; lia).
    simpl in Ha. rewrite Ha. ring.
  - intros n Hn. apply (H (S n)). simpl. lia.
Qed.

Lemma reduced_sq_err_same (rm : bool) (v : vec) : reduced_sq_err rm v v = 0.
Proof.
  unfold reduced_sq_err, reduce_op, mean.
  assert (Hs : sum (square (map2 Rminus v v)) = 0).
  { unfold square. induction v as [|a v IH]; simpl; [reflexivity|].
    rewrite IH. ring. }
  rewrite Hs. destruct rm; unfold Rdiv; ring.
Qed.

(** X12.  A model that predicts the target score exactly has DSM loss 0, for
    both weightings and both reductions. *)
Theorem dsm_loss_zero_at_target (c : dsm_config Model) (rng : key)
  (params : Params) (states : State) (bd : batch_dict)
  (x_t logp_grad std_col : batch) (log0 : list (key * consumer))
  (N d : nat) :
  let sde_ := sde (dsm_pushforward c) in
  let x_0 := data bd in
  let k1 := Child rng 1 in
  let k2 := Child (Child rng 0) 1 in
  let t := uniform ext k1 (length x_0) (t0 sde_ + dsm_eps c) (tf sde_) in
  let score :=
    fst (get_score_fn ext sde_ (dsm_model c) params states (dsm_train c)
           x_t t k2) in
  let std := snd (marginal_prob sde_ (zeros_like2 x_t) t) in
  let g := snd (coefficients sde_ (zeros_like2 x_0) t) in
  dsm_sample_and_target c k2 x_0 t = Some (x_t, logp_grad, std_col, log0) ->
  score = logp_grad ->
  has_shape N d score = true ->
  length std = N ->
  (dsm_like_w c = true -> length g = N) ->
  exists st log,
    dsm_loss_fn ext c rng params states bd = Some (0, st, log).
Proof.
  intros sde_ x_0 k1 k2 t score std g Hst Heq Hs Hstd Hg.
  subst score std g t k1 k2 x_0 sde_.
  assert (Hl : has_shape N d logp_grad = true) by (rewrite <- Heq; exact Hs).
  destruct (dsm_losses_per_example ext c rng params states bd x_t logp_grad
              std_col log0 N d Hst Hs Hl Hstd Hg) as [losses [st [H1 [H2 H3]]]].
  exists st. eexists.
  unfold dsm_loss_fn. rewrite H1. unfold bind, ret.
  assert (Hz : sum losses = 0).
  { apply sum_zero_of_nth. intros n Hn. rewrite H2 in Hn.
    rewrite (H3 n Hn). rewrite Heq.
    unfold dsm_per_example. rewrite reduced_sq_err_same.
    destruct (dsm_like_w c); ring. }
  unfold mean. rewrite Hz. unfold Rdiv. rewrite Rmult_0_l. reflexivity.
Qed.

End DSMFurther.

Section MoserFurther.
Import Arrays Random Losses LossSpec.

Context {Model Params State : Type}.
Variable ext : externals Model Params State.

Lemma mu_inv (c : moser_config Model)
  (div_fn : batch -> vec -> batch -> vec) (k : key) (x : batch)
  (mu_plus mu_minus : vec) (log : list (key * consumer)) :
  mu ext c div_fn k x = Some (mu_plus, mu_minus, log) ->
  exists m,
    broadcast2 Rminus (map exp (log_prob (base (moser_pushforward c)) x))
      (div_fn x (repeat 0 (length x))
         (div_noise ext k (shape x) (moser_hutchinson_type c)))
    = Some m
    /\ mu_plus = map (Rmax (moser_eps c)) m
    /\ mu_minus = map (fun v => moser_eps c - Rmin (moser_eps c) v) m.
Proof.
  unfold mu, bind, logged, lift, ret.
  destruct (broadcast2 Rminus _ _) as [m|]; [|discriminate].
  intros H. injection H as <- <- _. exists m. repeat split.
Qed.

(** X13.  The two clamped parts split [mu]: [mu_plus - mu_minus] is [mu] itself,
    at most one of [mu_plus - eps] and [mu_minus] is non-zero, and
    [mu_minus] vanishes exactly where [mu >= eps]. *)
Theorem moser_mu_decomposition (c : moser_config Model)
  (div_fn : batch -> vec -> batch -> vec) (k : key) (x : batch)
  (mu_plus mu_minus : vec) (log : list (key * consumer)) :
  mu ext c div_fn k x = Some (mu_plus, mu_minus, log) ->
  exists m,
    broadcast2 Rminus (map exp (log_prob (base (moser_pushforward c)) x))
      (div_fn x (repeat 0 (length x))
         (div_noise ext k (shape x) (moser_hutchinson_type c)))
    = Some m
    /\ length mu_plus = length m
    /\ length mu_minus = length m
    /\ forall n, (n < length m)%nat ->
         nth n mu_plus 0 - nth n mu_minus 0 = nth n m 0
         /\ (nth n mu_plus 0 - moser_eps c) * nth n mu_minus 0 = 0
         /\ (nth n mu_minus 0 = 0 <-> moser_eps c <= nth n m 0).
Proof.
  intros H. destruct (mu_inv _ _ _ _ _ _ _ H) as (m & Hm & -> & ->).
  exists m. split; [exact Hm|]. rewrite !length_map.
  split; [reflexivity|]. split; [reflexivity|].
  intros n Hn.
  rewrite (@nth_map_lt R R _ _ n 0 0) by exact Hn.
  rewrite (@nth_map_lt R R _ _ n 0 0) by exact Hn.
  set (e := moser_eps c). set (v := nth n m 0).
  unfold Rmax, Rmin. destruct (Rle_dec e v) as [Hle|Hgt].
  - split; [ring|]. split; [ring|]. split; [intros _; exact Hle|].
    intros _. ring.
  - split; [ring|]. split; [ring|]. split; [intros E; lra|].
    intros Hle. contradiction.
Qed.

Lemma moser_loss_fn_inv (c : moser_config Model) (rng : key)
  (params : Params) (states : State) (bd : batch_dict) (loss : R)
  (st : State) (log : list (key * consumer)) :
  moser_loss_fn ext c rng params states bd = Some (loss, st, log) ->
  let div_fn :=
    get_div_fn ext (get_ode_drift_fn ext (moser_model c) params states)
      (moser_hutchinson_type c) in
  let k1 := Child rng 1 in
  let k2 := Child (Child rng 0) 1 in
  let xs := sample (base (moser_pushforward c)) k2 (moser_K c) in
  let prior_prob := map exp (log_prob (base (moser_pushforward c)) xs) in
  exists mu_plus mm0 mp1 mu_minus l0 l1,
    mu ext c div_fn k1 (data bd) = Some (mu_plus, mm0, l0)
    /\ mu ext c div_fn k2 xs = Some (mp1, mu_minus, l1)
    /\ length mu_minus = length prior_prob
    /\ st = states
    /\ loss = - mean (map ln mu_plus)
              + moser_alpha_m c
                * mean (map2 Rmult mu_minus (map (fun p => 1 / p) prior_prob)).
Proof.
  unfold moser_loss_fn, split. cbv beta iota zeta.
  unfold bind at 1.
  destruct (mu ext c _ (Child rng 1) _) as [[[mp mm] l1]|] eqn:H1;
    [|discriminate].
  unfold bind at 1. unfold logged at 1.
  unfold bind at 1.
  destruct (mu ext c _ (Child (Child rng 0) 1) _) as [[[mp' mm'] l2]|] eqn:H2;
    [|discriminate].
  unfold bind, lift, ret, batch_mul1.
  destruct (Nat.eqb (length mm') _) eqn:Hl; [|discriminate].
  apply Nat.eqb_eq in Hl.
  intros H. injection H as <- <- _.
  exists mp, mm, mp', mm', l1, l2.
  split; [reflexivity|]. split; [reflexivity|].
  split; [rewrite Hl, !length_map; reflexivity|].
  split; reflexivity.
Qed.

(** X14.  Whenever the Moser loss returns, the model state is the one passed
    in, the loss is [- mean (log mu_plus)] at the data plus [alpha_m] times
    the mean of [mu_minus / base_density] at the base samples, every term
    of that mean is non-negative, and so with [alpha_m >= 0] and at least
    one base sample the loss is at least the data term. *)
Theorem moser_loss_value (c : moser_config Model) (rng : key)
  (params : Params) (states : State) (bd : batch_dict) (loss : R)
  (st : State) (log : list (key * consumer)) :
  moser_loss_fn ext c rng params states bd = Some (loss, st, log) ->
  let div_fn :=
    get_div_fn ext (get_ode_drift_fn ext (moser_model c) params states)
      (moser_hutchinson_type c) in
  let k1 := Child rng 1 in
  let k2 := Child (Child rng 0) 1 in
  let xs := sample (base (moser_pushforward c)) k2 (moser_K c) in
  let prior_prob := map exp (log_prob (base (moser_pushforward c)) xs) in
  exists mu_plus mm0 mp1 mu_minus l0 l1,
    mu ext c div_fn k1 (data bd) = Some (mu_plus, mm0, l0)
    /\ mu ext c div_fn k2 xs = Some (mp1, mu_minus, l1)
    /\ st = states
    /\ loss = - mean (map ln mu_plus)
              + moser_alpha_m c
                * mean (map2 Rmult mu_minus (map (fun p => 1 / p) prior_prob))
    /\ Forall (fun w => 0 <= w)
         (map2 Rmult mu_minus (map (fun p => 1 / p) prior_prob))
    /\ (0 <= moser_alpha_m c -> xs <> [] ->
        - mean (map ln mu_plus) <= loss).
Proof.
  intros H div_fn k1 k2 xs prior_prob.
  destruct (moser_loss_fn_inv _ _ _ _ _ _ _ _ H)
    as (mp & mm0 & mp1 & mm & l0 & l1 & H1 & H2 & Hlen & Hst & Hloss).
  subst prior_prob xs k2 k1 div_fn.
  exists mp, mm0, mp1, mm, l0, l1.
  split; [exact H1|]. split; [exact H2|]. split; [exact Hst|].
  split; [exact Hloss|].
  match goal with |- ?A /\ _ => assert (Hw : A) end.
  { apply map2_mult_nonneg.
    - destruct (mu_bounds ext _ _ _ _ _ _ _ H2) as [_ Hm].
      eapply Forall_impl; [|exact Hm]. simpl. intros a Ha. lra.
    - apply Forall_forall. intros q Hq.
      apply in_map_iff in Hq as [p [<- Hp]].
      apply in_map_iff in Hp as [lp [<- _]].
      pose proof (exp_pos lp) as He.
      unfold Rdiv. rewrite Rmult_1_l. left. apply Rinv_0_lt_compat. exact He. }
  split; [exact Hw|].
  intros Ha _. rewrite Hloss.
  pose proof (mean_nonneg _ Hw) as Hm.
  pose proof (Rmult_le_pos _ _ Ha Hm) as Hpen.
  lra.
Qed.

Lemma sum_zero_of_Forall (l : vec) : Forall (fun a => a = 0) l -> sum l = 0.
Proof.
  induction 1 as [|a l Ha Hl IH]; simpl; [reflexivity|].
  rewrite Ha, IH. ring.
Qed.

(** X15.  With [eps > 0] the Moser loss only takes logarithms of positive
    numbers.  Where [mu >= eps] at every base sample the penalty vanishes
    and the loss is the data term [- mean (log mu_plus)] alone. *)
Theorem moser_loss_without_violation (c : moser_config Model) (rng : key)
  (params : Params) (states : State) (bd : batch_dict) (loss : R)
  (st : State) (log : list (key * consumer)) :
  moser_loss_fn ext c rng params states bd = Some (loss, st, log) ->
  let div_fn :=
    get_div_fn ext (get_ode_drift_fn ext (moser_model c) params states)
      (moser_hutchinson_type c) in
  let k1 := Child rng 1 in
  let k2 := Child (Child rng 0) 1 in
  let xs := sample (base (moser_pushforward c)) k2 (moser_K c) in
  exists mu_plus mm0 m,
    mu ext c div_fn k1 (data bd) = Some (mu_plus, mm0, [(k1, Div_noise)])
    /\ broadcast2 Rminus
         (map exp (log_prob (base (moser_pushforward c)) xs))
         (div_fn xs (repeat 0 (length xs))
            (div_noise ext k2 (shape xs) (moser_hutchinson_type c)))
       = Some m
    /\ (0 < moser_eps c -> Forall (fun p => 0 < p) mu_plus)
    /\ (Forall (fun v => moser_eps c <= v) m ->
        loss = - mean (map ln mu_plus)).
Proof.
  intros H div_fn k1 k2 xs.
  destruct (moser_loss_fn_inv _ _ _ _ _ _ _ _ H)
    as (mp & mm0 & mp1 & mm & l0 & l1 & H1 & H2 & Hlen & Hst & Hloss).
  subst xs k2 k1 div_fn.
  pose proof (mu_log ext _ _ _ _ _ _ H1) as ->.
  destruct (mu_inv _ _ _ _ _ _ _ H2) as (m & Hm & _ & Hmm).
  exists mp, mm0, m.
  split; [exact H1|]. split; [exact Hm|]. split.
  - intros He. destruct (mu_bounds ext _ _ _ _ _ _ _ H1) as [Hp _].
    eapply Forall_impl; [|exact Hp]. simpl. intros a Ha. lra.
  - intros Hv. rewrite Hloss.
    assert (Hz : Forall (fun q => q = 0) mm).
    { rewrite Hmm. apply Forall_forall. intros q Hq.
      apply in_map_iff in Hq as [v [<- Hin]].
      rewrite Forall_forall in Hv. specialize (Hv v Hin).
      rewrite Rmin_left by exact Hv. ring. }
    assert (Hs : forall l : vec, sum (map2 Rmult mm l) = 0).
    { intros l. apply sum_zero_of_Forall. clear - Hz. revert l.
      induction Hz as [|q mm Hq Hz IH]; intros l; [constructor|].
      destruct l as [|p l]; [constructor|].
      simpl. constructor; [rewrite Hq; ring|]. apply IH. }
    unfold mean at 2. rewrite Hs. unfold Rdiv. rewrite Rmult_0_l. ring.
Qed.

(** X16.  The DSM loss with [s_zero = True] and the ISM loss, run on the same
    arguments with the same SDE, model, training flag and [eps], evaluate
    the score at the same sample, times and key, and return the same
    updated model state. *)
Theorem dsm_ism_same_state (cd : dsm_config Model) (ci : ism_config Model)
  (rng : key) (params : Params) (states : State) (bd : batch_dict)
  (l1 l2 : R) (st1 st2 : State) (log1 log2 : list (key * consumer)) :
  dsm_pushforward cd = ism_pushforward ci ->
  dsm_model cd = ism_model ci ->
  dsm_train cd = ism_train ci ->
  dsm_eps cd = ism_eps ci ->
  dsm_s_zero cd = true ->
  dsm_loss_fn ext cd rng params states bd = Some (l1, st1, log1) ->
  ism_loss_fn ext ci rng params states bd = Some (l2, st2, log2) ->
  st1 = st2
  /\ st1 = snd (get_score_fn ext (sde (ism_pushforward ci)) (ism_model ci)
                  params states (ism_train ci)
                  (marginal_sample (sde (ism_pushforward ci))
                     (Child (Child rng 0) 1) (data bd)
                     (uniform ext (Child rng 1) (length (data bd))
                        (t0 (sde (ism_pushforward ci)) + ism_eps ci)
                        (tf (sde (ism_pushforward ci)))))
                  (uniform ext (Child rng 1) (length (data bd))
                     (t0 (sde (ism_pushforward ci)) + ism_eps ci)
                     (tf (sde (ism_pushforward ci))))
                  (Child (Child rng 0) 1)).
Proof.
  intros Hp Hm Ht He Hz Hd Hi.
  assert (E2 : st2 = snd (get_score_fn ext (sde (ism_pushforward ci))
                  (ism_model ci) params states (ism_train ci)
                  (marginal_sample (sde (ism_pushforward ci))
                     (Child (Child rng 0) 1) (data bd)
                     (uniform ext (Child rng 1) (length (data bd))
                        (t0 (sde (ism_pushforward ci)) + ism_eps ci)
                        (tf (sde (ism_pushforward ci)))))
                  (uniform ext (Child rng 1) (length (data bd))
                     (t0 (sde (ism_pushforward ci)) + ism_eps ci)
                     (tf (sde (ism_pushforward ci))))
                  (Child (Child rng 0) 1))).
  { revert Hi.
    unfold ism_loss_fn, ism_losses, sample_times, split.
    cbv beta iota zeta. unfold bind, logged, lift, ret.
    destruct (get_score_fn ext _ _ _ _ _ _ _ _) as [score st].
    destruct (broadcast2 Rplus _ _) as [l|]; [|discriminate].
    destruct (ism_like_w ci).
    - destruct (broadcast2 Rmult l _); [|discriminate].
      intros H. injection H as _ <- _. reflexivity.
    - intros H. injection H as _ <- _. reflexivity. }
  assert (E1 : st1 = snd (get_score_fn ext (sde (dsm_pushforward cd))
                  (dsm_model cd) params states (dsm_train cd)
                  (marginal_sample (sde (dsm_pushforward cd))
                     (Child (Child rng 0) 1) (data bd)
                     (uniform ext (Child rng 1) (length (data bd))
                        (t0 (sde (dsm_pushforward cd)) + dsm_eps cd)
                        (tf (sde (dsm_pushforward cd)))))
                  (uniform ext (Child rng 1) (length (data bd))
                     (t0 (sde (dsm_pushforward cd)) + dsm_eps cd)
                     (tf (sde (dsm_pushforward cd))))
                  (Child (Child rng 0) 1))).
  { revert Hd. clear - Hz.
    unfold dsm_loss_fn, dsm_losses, sample_times, split, dsm_sample_and_target.
    rewrite Hz.
    cbv beta iota zeta. unfold bind, logged, lift, ret. cbv beta iota.
    destruct (get_score_fn ext _ _ _ _ _ _ _ _) as [score st].
    destruct (dsm_weighted_losses cd _ _ score _ _); [|discriminate].
    intros H. injection H as _ <- _. reflexivity. }
  rewrite Hp, Hm, Ht, He in E1.
  split; [congruence|exact E1].
Qed.

End MoserFurther.

(** ** The further properties at concrete inputs *)

Section SDEFurtherWitnesses.
Import Arrays Random SDE SDESpec ToySDE.

Lemma toy_interval : t0 toy_brownian < tf toy_brownian.
Proof. simpl. lra. Qed.

Lemma toy_half_in_interval : t0 toy_brownian <= 1 / 2 <= tf toy_brownian.
Proof. simpl. lra. Qed.

Lemma toy_beta_0_nonneg : 0 <= beta_0 toy_brownian.
Proof. simpl. lra. Qed.

Lemma toy_beta_f_nonneg : 0 <= beta_f toy_brownian.
Proof. simpl. lra. Qed.

Lemma toy_beta_monotone : beta_0 toy_brownian <= beta_f toy_brownian.
Proof. simpl. lra. Qed.

Lemma toy_beta_t_half : 0 <= Brownian_beta_t toy_brownian (1 / 2).
Proof. unfold Brownian_beta_t. simpl. lra. Qed.

Lemma toy_heat_kernel_s_half : 0 <= Brownian_heat_kernel_s toy_brownian (1 / 2).
Proof. unfold Brownian_heat_kernel_s. simpl. lra. Qed.

Lemma Brownian_beta_t_interpolates_witness :
  Brownian_beta_t toy_brownian 0 = 1
  /\ Brownian_beta_t toy_brownian 1 = 2
  /\ Rmin 1 2 <= Brownian_beta_t toy_brownian (1 / 2) <= Rmax 1 2.
Proof.
  exact (Brownian_beta_t_interpolates toy_brownian (1 / 2)
           toy_interval toy_half_in_interval).
Defined.

Lemma Brownian_coefficients_schedule_witness :
  exists g,
    Brownian_coefficients toy_brownian [3; 4] (1 / 2) = ([0; 0], DScalar g)
    /\ 0 <= g
    /\ g * g = Brownian_beta_t toy_brownian (1 / 2)
    /\ snd (Brownian_coefficients toy_brownian [3; 4] 0) = DScalar (sqrt 1)
    /\ snd (Brownian_coefficients toy_brownian [3; 4] 1) = DScalar (sqrt 2).
Proof.
  exact (Brownian_coefficients_schedule toy_brownian [3; 4] (1 / 2)
           toy_interval toy_half_in_interval toy_beta_0_nonneg
           toy_beta_f_nonneg).
Defined.

Lemma Brownian_marginal_prob_std_range_witness :
  snd (Brownian_marginal_prob toy_brownian [3; 4] 0) = 0
  /\ 0 <= snd (Brownian_marginal_prob toy_brownian [3; 4] (1 / 2)) < 1
  /\ fst (Brownian_marginal_prob toy_brownian [3; 4] (1 / 2)) = [0; 0].
Proof.
  refine (Brownian_marginal_prob_std_range toy_brownian [3; 4] (1 / 2)
            _ toy_beta_0_nonneg toy_beta_monotone).
  lra.
Defined.

Lemma Brownian_std_of_heat_kernel_s_witness :
  snd (Brownian_marginal_prob toy_brownian [3; 4] (1 / 2)) ^ 2
  = 1 - exp (- Brownian_heat_kernel_s toy_brownian (1 / 2)).
Proof.
  exact (proj2 (Brownian_std_of_heat_kernel_s toy_brownian [0; 0] [3; 4]
                  (1 / 2) toy_heat_kernel_s_half)).
Defined.

Lemma Brownian_heat_kernel_s_accumulates_witness :
  Brownian_heat_kernel_s toy_brownian 1 - Brownian_heat_kernel_s toy_brownian 0
  = (1 - 0) * Brownian_beta_t toy_brownian ((0 + 1) / 2)
  /\ Brownian_heat_kernel_s toy_brownian 1
     = 1 * Brownian_beta_t toy_brownian (1 / 2).
Proof.
  exact (Brownian_heat_kernel_s_accumulates toy_brownian 0 1 eq_refl eq_refl).
Defined.

Lemma reverse_brownian_drift_is_scaled_score_witness :
  exists g,
    ReverseBrownian_coefficients (Brownian_reverse toy_brownian toy_score)
      [3; 4] (1 / 2)
    = Some ([- Brownian_beta_t toy_brownian (1 / 2) * 3;
             - Brownian_beta_t toy_brownian (1 / 2) * 4], DScalar g)
    /\ g * g = Brownian_beta_t toy_brownian (1 / 2).
Proof.
  exact (reverse_brownian_drift_is_scaled_score toy_brownian toy_score
           [3; 4] (1 / 2) toy_beta_t_half eq_refl).
Defined.

Lemma reverse_with_zero_score_keeps_coefficients_witness :
  ReverseBrownian_coefficients
    (ReverseBrownian__init__ (IsOtherSDE toy_matrix_sde)
       (fun _ _ => [0; 0])) [3; 4] (1 / 2)
  = Some ([1; 2], DMatrix [[1; 2]; [3; 4]])
  /\ ReverseBrownian_coefficients
       (ReverseBrownian__init__ (IsBrownian toy_brownian)
          (fun _ _ => [0; 0])) [3; 4] (1 / 2)
     = Some ([0; 0], DScalar (sqrt (Brownian_beta_t toy_brownian (1 / 2)))).
Proof.
  split.
  - exact (reverse_with_zero_score_keeps_coefficients
             (IsOtherSDE toy_matrix_sde) (fun _ _ => [0; 0]) [3; 4] (1 / 2)
             [1; 2] (DMatrix [[1; 2]; [3; 4]]) eq_refl eq_refl eq_refl).
  - exact (reverse_with_zero_score_keeps_coefficients
             (IsBrownian toy_brownian) (fun _ _ => [0; 0]) [3; 4] (1 / 2)
             [0; 0] _ eq_refl eq_refl eq_refl).
Defined.

Lemma reverse_preserves_diffusion_witness :
  (exists forward_drift,
      coefficients (IsBrownian toy_brownian) [3; 4] (1 / 2)
      = Some (forward_drift,
              DScalar (sqrt (Brownian_beta_t toy_brownian (1 / 2)))))
  /\ sde_t0 (IsReverseBrownian
               (ReverseBrownian__init__
                  (IsReverseBrownian
                     (ReverseBrownian__init__ (IsBrownian toy_brownian)
                        toy_score))
                  toy_score)) = 0.
Proof.
  destruct (reverse_preserves_diffusion (IsBrownian toy_brownian) toy_score
              toy_score [3; 4] (1 / 2) _ _ eq_refl)
    as (H1 & _ & H3 & _).
  split; [exact H1|exact H3].
Defined.

Lemma reverse_marginal_sample_is_forward_witness :
  fst (Brownian_marginal_sample unit toy_get_pc_sampler
         (IsReverseBrownian (Brownian_reverse toy_brownian toy_score))
         (Root 0) [3; 4] (1 / 2))
  = [3; 4].
Proof.
  exact (proj1 (proj2 (reverse_marginal_sample_is_forward unit
                         toy_get_pc_sampler toy_brownian toy_score (Root 0)
                         [3; 4] (1 / 2)) eq_refl)).
Defined.

End SDEFurtherWitnesses.

Section LossFurtherWitnesses.
Import Arrays Random Losses LossSpec Toy ToyMore.

Lemma dsm_loss_nonneg_witness :
  exists losses,
    dsm_losses toy_ext (toy_dsm false false true 0.001) (Root 0) tt tt batch3
    = Some (losses, tt,
            [(Child (Root 0) 1, Uniform_t);
             (Child (Child (Root 0) 0) 1, Marginal_sample);
             (Child (Child (Root 0) 0) 1, Score_eval)])
    /\ Forall (fun l => 0 <= l) losses.
Proof.
  destruct (dsm_loss_nonneg toy_ext (toy_dsm false false true 0.001) (Root 0)
              tt tt batch3 _ _ _ eq_refl) as (losses & H1 & _ & H3 & _).
  exists losses. split; [exact H1|exact H3].
Defined.

Lemma dsm_loss_zero_at_target_witness :
  exists st log,
    dsm_loss_fn toy_ext_zero (toy_dsm true true true 0.001) (Root 0) tt tt
      batch3
    = Some (0, st, log).
Proof.
  exact (dsm_loss_zero_at_target toy_ext_zero (toy_dsm true true true 0.001)
           (Root 0) tt tt batch3 [[0]; [0]; [0]] [[0]; [0]; [0]]
           [[1 / 2]; [1 / 2]; [1 / 2]] _ 3 1
           eq_refl eq_refl eq_refl eq_refl (fun _ => eq_refl)).
Defined.

Lemma moser_mu_decomposition_witness :
  exists m mu_plus mu_minus log,
    mu toy_ext (toy_moser 0.001)
       (get_div_fn toy_ext (fun x _ => x) "Rademacher") (Root 0) [[0]]
    = Some (mu_plus, mu_minus, log)
    /\ m = [exp 0 - dot [1] [1]]
    /\ nth 0 mu_plus 0 - nth 0 mu_minus 0 = nth 0 m 0.
Proof.
  destruct (moser_mu_decomposition toy_ext (toy_moser 0.001)
              (get_div_fn toy_ext (fun x _ => x) "Rademacher") (Root 0) [[0]]
              _ _ _ eq_refl) as (m & Hm & _ & _ & Hn).
  injection Hm as <-.
  eexists. eexists. eexists. eexists.
  split; [reflexivity|]. split; [reflexivity|].
  exact (proj1 (Hn 0%nat (le_n 1))).
Defined.

Lemma moser_loss_value_witness :
  exists loss log mu_plus mm0 l0,
    moser_loss_fn toy_ext (toy_moser 0.001) (Root 0) tt tt batch1
    = Some (loss, tt, log)
    /\ mu toy_ext (toy_moser 0.001)
         (get_div_fn toy_ext (get_ode_drift_fn toy_ext tt tt tt) "Rademacher")
         (Child (Root 0) 1) [[0]]
       = Some (mu_plus, mm0, l0)
    /\ - mean (map ln mu_plus) <= loss.
Proof.
  destruct (moser_loss_value toy_ext (toy_moser 0.001) (Root 0) tt tt batch1
              _ _ _ eq_refl)
    as (mp & mm0 & mp1 & mm & l0 & l1 & H1 & _ & _ & _ & _ & Hge).
  eexists. eexists. exists mp, mm0, l0.
  split; [reflexivity|]. split; [exact H1|].
  apply Hge.
  - simpl. lra.
  - discriminate.
Defined.

Lemma moser_loss_without_violation_witness :
  exists mu_plus mm0,
    mu toy_ext (toy_moser 0.001)
       (get_div_fn toy_ext (get_ode_drift_fn toy_ext tt tt tt) "Rademacher")
       (Child (Root 0) 1) [[0]]
    = Some (mu_plus, mm0, [(Child (Root 0) 1, Div_noise)])
    /\ Forall (fun p => 0 < p) mu_plus.
Proof.
  destruct (moser_loss_without_violation toy_ext (toy_moser 0.001) (Root 0)
              tt tt batch1 _ _ _ eq_refl)
    as (mp & mm0 & m & H1 & _ & Hpos & _).
  exists mp, mm0. split; [exact H1|]. apply Hpos. simpl. lra.
Defined.

Lemma dsm_ism_same_state_witness :
  option_map (fun r => snd (fst r))
    (dsm_loss_fn toy_ext (toy_dsm true true true 0.001) (Root 0) tt tt batch3)
  = option_map (fun r => snd (fst r))
      (ism_loss_fn toy_ext (toy_ism true 0.001) (Root 0) tt tt batch3).
Proof.
  destruct (dsm_ism_same_state toy_ext (toy_dsm true true true 0.001)
              (toy_ism true 0.001) (Root 0) tt tt batch3 _ _ _ _ _ _
              eq_refl eq_refl eq_refl eq_refl eq_refl eq_refl eq_refl)
    as [H _].
  exact (f_equal Some H).
Defined.

End LossFurtherWitnesses.
